(** * mlpacke.interface.glue: the cached Glue catalog client

    A shallow embedding of [src/mlpacke/interface/glue.py].  The class
    [CatalogInterface] keeps two pieces of process-wide state (the lazily
    created boto3 client and the partition cache) and talks to the AWS Glue
    service.  The service is not part of the repository, so it is an
    interface here ([GlueService]): every statement below holds for any
    implementation of it.  An in-memory catalog ([MemGlue]) gives the
    interface one executable instance on which the statements are run. *)

From Stdlib Require Import ZArith Ascii String List DecimalString.
From stdpp Require Import gmap strings list.

Local Open Scope string_scope.
Local Open Scope Z_scope.

(** ** Python values and exceptions *)

(** The elements of a [partition] argument: the code coerces each one with
    [str], so callers pass strings or integers. *)
Inductive pyval :=
| PyStr (s : string)
| PyInt (z : Z).

(** Python's [str] on those values: a string is itself, an integer prints in
    decimal with a leading minus sign when negative. *)
Definition str (v : pyval) : string :=
  match v with
  | PyStr s => s
  | PyInt z => NilZero.string_of_int (Z.to_int z)
  end.

(** Exceptions (all of them subclasses of Python's [Exception]).
    [EntityNotFoundException] is the service's modelled not-found error;
    [IndexError] comes from indexing an empty list; [OtherException] stands
    for every other error a boto3 call raises (access denied, throttling,
    already exists, connection errors, ...), named by its class. *)
Inductive exn :=
| EntityNotFoundException
| IndexError
| OtherException (name : string).

(** [except client_glue.exceptions.EntityNotFoundException] *)
Definition is_entity_not_found (e : exn) : bool :=
  match e with
  | EntityNotFoundException => true
  | _ => false
  end.

Inductive result (A : Type) :=
| Ok (a : A)
| Raise (e : exn).
Arguments Ok {A} a.
Arguments Raise {A} e.

(** ** Requests and responses of the Glue API, as far as the client reads
    or writes them *)

Record serde_info := {
  SerializationLibrary : string;
  Parameters : list (string * string)
}.

Record storage_descriptor := {
  Location : string;
  InputFormat : option string;
  OutputFormat : option string;
  SerdeInfo : option serde_info
}.

(** Both the [PartitionInput] of a write and an entry of a read. *)
Record partition_record := {
  Values : list string;
  StorageDescriptor : storage_descriptor
}.

(** [{"Partition": ..., "ResponseMetadata": ...}] *)
Record get_partition_response := {
  Partition : partition_record
}.

(** [{"Partitions": [...], "NextToken": ...}]; the token key is optional. *)
Record get_partitions_response := {
  Partitions : list partition_record;
  NextToken : option string
}.

(** [response["ResponseMetadata"]["HTTPStatusCode"]] *)
Record write_response := {
  HTTPStatusCode : Z
}.

(** The service calls the client can issue, with their keyword arguments. *)
Inductive call :=
| GetPartition (DatabaseName TableName : string) (PartitionValues : list string)
| GetPartitions (DatabaseName TableName : string) (MaxResults : Z)
    (ExcludeColumnSchema : bool) (NextToken : string)
| CreatePartition (DatabaseName TableName : string) (PartitionInput : partition_record)
| UpdatePartition (DatabaseName TableName : string)
    (PartitionValueList : list string) (PartitionInput : partition_record).

Definition is_create (c : call) : bool :=
  match c with CreatePartition _ _ _ => true | _ => false end.

(** The remote catalog: a state and, for each API call, the answer (a
    response or a raised exception) with the state after it. *)
Class GlueService (S : Type) := {
  glue_get_partition :
    string → string → list string → S → result get_partition_response * S;
  glue_get_partitions :
    string → string → Z → bool → string → S → result get_partitions_response * S;
  glue_create_partition :
    string → string → partition_record → S → result write_response * S;
  glue_update_partition :
    string → string → list string → partition_record → S → result write_response * S
}.

(** ** Logging *)

Inductive level := DEBUG | WARNING | ERROR.

(** The messages the module logs, one constructor per format string, with
    the values interpolated into it. *)
Inductive message :=
| MsgPartitionMissing (partition : list string) (database table : string)
| MsgListingFailed (database table : string)
| MsgAlreadyExists
| MsgCreating (partition : list string) (location : string)
| MsgCreated
| MsgCreateFailed (partition : list string) (database table : string)
| MsgUpdated
| MsgUpdateStatus (status_code : Z)
| MsgUpdateFailed (partition : list string) (database table : string)
| MsgException (e : exn).

(** ** Sorting a page

    [sorted(response["Partitions"], key=lambda x: x["Values"][0], reverse=True)]:
    the keys are computed first (an entry with no value raises [IndexError]),
    then the entries are sorted on them, greatest first; entries with equal
    keys keep their order (Python's sort is stable, also with [reverse]).
    Python compares strings by code point, which on UTF-8 bytes is the
    byte-wise order of [String.ltb]. *)

Definition first_value (x : partition_record) : result string :=
  match Values x with
  | v :: _ => Ok v
  | [] => Raise IndexError
  end.

Fixpoint decorate (l : list partition_record) : result (list (string * partition_record)) :=
  match l with
  | [] => Ok []
  | x :: l' =>
      match first_value x with
      | Raise e => Raise e
      | Ok k =>
          match decorate l' with
          | Raise e => Raise e
          | Ok d => Ok ((k, x) :: d)
          end
      end
  end.

Section Sorting.
Context {A : Type}.

Fixpoint insert_desc (x : string * A) (l : list (string * A)) : list (string * A) :=
  match l with
  | [] => [x]
  | y :: l' =>
      if String.ltb (fst x) (fst y) then y :: insert_desc x l'
      else x :: y :: l'
  end.

Fixpoint sort_desc (l : list (string * A)) : list (string * A) :=
  match l with
  | [] => []
  | x :: l' => insert_desc x (sort_desc l')
  end.
End Sorting.

Definition sorted_by_first_value (l : list partition_record) : result (list partition_record) :=
  match decorate l with
  | Raise e => Raise e
  | Ok d => Ok (map snd (sort_desc d))
  end.

(** [[item[0] for item in partitions]] *)
Fixpoint first_components (l : list (list string)) : result (list string) :=
  match l with
  | [] => Ok []
  | [] :: _ => Raise IndexError
  | (v :: _) :: l' =>
      match first_components l' with
      | Raise e => Raise e
      | Ok vs => Ok (v :: vs)
      end
  end.

(** What a listing returns: the list of first values, or the list of keys. *)
Inductive listing :=
| FirstValues (l : list string)
| Keys (l : list (list string)).

Inductive entry :=
| FirstValue (v : string)
| Key (k : list string).

Definition entries (l : listing) : list entry :=
  match l with
  | FirstValues vs => map FirstValue vs
  | Keys ks => map Key ks
  end.

(** [partitions[0]] *)
Definition item0 (l : listing) : result entry :=
  match entries l with
  | x :: _ => Ok x
  | [] => Raise IndexError
  end.

(** [f"{database}.{table}"] *)
Definition cache_key (database table : string) : string :=
  database ++ "." ++ table.

(** The fixed storage description of a created partition. *)
Definition create_input (partition : list string) (location : string) : partition_record :=
  {| Values := partition;
     StorageDescriptor :=
       {| Location := location;
          InputFormat := Some "org.apache.hadoop.mapred.TextInputFormat";
          OutputFormat := Some "org.apache.hadoop.hive.ql.io.HiveIgnoreKeyTextOutputFormat";
          SerdeInfo :=
            Some {| SerializationLibrary := "org.apache.hadoop.hive.ql.io.parquet.serde.ParquetHiveSerDe";
                    Parameters := [("serialization.format", "1")] |} |} |}.

Definition update_input (partition : list string) (location : string) : partition_record :=
  {| Values := partition;
     StorageDescriptor :=
       {| Location := location;
          InputFormat := None;
          OutputFormat := None;
          SerdeInfo := None |} |}.

(** ** The client *)

Section Client.
Context {Svc : Type} `{GlueService Svc}.

(** The process: the two class attributes, the remote service, and what
    an observer sees of a run (the log records and the calls issued). *)
Record World := {
  _client_glue : option string;
  _cache : gmap string (list (list string));
  glue : Svc;
  logged : list (level * message);
  calls : list call
}.

Definition set_client (c : option string) (w : World) : World :=
  {| _client_glue := c; _cache := _cache w; glue := glue w;
     logged := logged w; calls := calls w |}.

Definition set_cache (m : gmap string (list (list string))) (w : World) : World :=
  {| _client_glue := _client_glue w; _cache := m; glue := glue w;
     logged := logged w; calls := calls w |}.

Definition add_log (l : level) (m : message) (w : World) : World :=
  {| _client_glue := _client_glue w; _cache := _cache w; glue := glue w;
     logged := logged w ++ [(l, m)]; calls := calls w |}.

(** The service took call [c] and is now in state [s]. *)
Definition served (c : call) (s : Svc) (w : World) : World :=
  {| _client_glue := _client_glue w; _cache := _cache w; glue := s;
     logged := logged w; calls := calls w ++ [c] |}.

(** Computations that change the process and return or raise. *)
Definition M (A : Type) : Type := World → result A * World.

Definition ret {A} (a : A) : M A := λ w, (Ok a, w).

Definition bind {A B} (m : M A) (k : A → M B) : M B :=
  λ w, match m w with
       | (Ok a, w') => k a w'
       | (Raise e, w') => (Raise e, w')
       end.

(** [try: m  except <handles>: h] *)
Definition try_except {A} (m : M A) (handles : exn → bool) (h : exn → M A) : M A :=
  λ w, match m w with
       | (Ok a, w') => (Ok a, w')
       | (Raise e, w') => if handles e then h e w' else (Raise e, w')
       end.

Definition logger (l : level) (m : message) : M unit :=
  λ w, (Ok tt, add_log l m w).

Definition request {A} (c : call) (answer : Svc → result A * Svc) : M A :=
  λ w, let '(r, s) := answer (glue w) in (r, served c s w).
End Client.

Arguments World Svc : clear implicits.
Arguments M Svc A : clear implicits.

Notation "x <- m ;; k" := (bind m (λ x, k))
  (at level 100, m at next level, right associativity).
Notation "m ;;; k" := (bind m (λ _, k))
  (at level 100, right associativity).

Section Operations.
Context {Svc : Type} `{GlueService Svc}.

(** [boto3.client(service_name=service)].  Building the client reads the
    SDK's configuration only; it is taken to succeed. *)
Definition create_client (service : string) : M Svc string :=
  ret service.

Definition get_client : M Svc string :=
  λ w, match _client_glue w with
       | None =>
           (c <- create_client "glue" ;;
            λ w', (Ok c, set_client (Some c) w')) w
       | Some c => (Ok c, w)
       end.

(** The four methods of the boto3 client, each recorded in [calls]. *)
Definition client_get_partition (DatabaseName TableName : string)
    (PartitionValues : list string) : M Svc get_partition_response :=
  request (GetPartition DatabaseName TableName PartitionValues)
          (glue_get_partition DatabaseName TableName PartitionValues).

Definition client_get_partitions (DatabaseName TableName : string) (MaxResults : Z)
    (ExcludeColumnSchema : bool) (NextToken : string) : M Svc get_partitions_response :=
  request (GetPartitions DatabaseName TableName MaxResults ExcludeColumnSchema NextToken)
          (glue_get_partitions DatabaseName TableName MaxResults ExcludeColumnSchema NextToken).

Definition client_create_partition (DatabaseName TableName : string)
    (PartitionInput : partition_record) : M Svc write_response :=
  request (CreatePartition DatabaseName TableName PartitionInput)
          (glue_create_partition DatabaseName TableName PartitionInput).

Definition client_update_partition (DatabaseName TableName : string)
    (PartitionValueList : list string) (PartitionInput : partition_record)
    : M Svc write_response :=
  request (UpdatePartition DatabaseName TableName PartitionValueList PartitionInput)
          (glue_update_partition DatabaseName TableName PartitionValueList PartitionInput).

(** [CatalogInterface.get_partition] *)
Definition get_partition (database table : string) (partition : list pyval)
    : M Svc (option get_partition_response) :=
  client_glue <- get_client ;;
  let partition := map str partition in
  try_except
    (r <- client_get_partition database table partition ;; ret (Some r))
    is_entity_not_found
    (λ _, logger WARNING (MsgPartitionMissing partition database table) ;;;
          ret None).

(** The body of [while True:] in [get_all_partitions], run at most [fuel]
    times.  [partitions] is the list the loop extends in place, so what
    was collected before an exception is still in it afterwards; [None]
    means the loop has not ended within [fuel] rounds. *)
Fixpoint fetch_pages (fuel : nat) (database table next_token : string)
    (partitions : list (list string)) (w : World Svc)
    : option (result unit * list (list string) * World Svc) :=
  match fuel with
  | O => None
  | Datatypes.S fuel' =>
      match client_get_partitions database table 500 true next_token w with
      | (Raise e, w') => Some (Raise e, partitions, w')
      | (Ok response, w') =>
          match sorted_by_first_value (Partitions response) with
          | Raise e => Some (Raise e, partitions, w')
          | Ok page =>
              let partitions := (partitions ++ map Values page)%list in
              match NextToken response with
              | None => Some (Ok tt, partitions, w')
              | Some token => fetch_pages fuel' database table token partitions w'
              end
          end
      end
  end.

(** What follows the [try] of [get_all_partitions]: store and return. *)
Definition store_and_return (database table : string) (only_first_value : bool)
    (partitions : list (list string)) : M Svc listing :=
  λ w,
    let w' := set_cache (<[cache_key database table := partitions]> (_cache w)) w in
    if only_first_value then
      match first_components partitions with
      | Ok vs => (Ok (FirstValues vs), w')
      | Raise e => (Raise e, w')
      end
    else (Ok (Keys partitions), w').

(** [CatalogInterface.get_all_partitions] *)
Definition get_all_partitions (fuel : nat) (database table : string)
    (only_first_value : bool) (w : World Svc) : option (result listing * World Svc) :=
  let '(_, w) := get_client w in
  match _cache w !! cache_key database table with
  | Some cached =>
      if only_first_value then
        match first_components cached with
        | Ok vs => Some (Ok (FirstValues vs), w)
        | Raise e => Some (Raise e, w)
        end
      else Some (Ok (Keys cached), w)
  | None =>
      match fetch_pages fuel database table "" [] w with
      | None => None
      | Some (Ok _, partitions, w') =>
          Some (store_and_return database table only_first_value partitions w')
      | Some (Raise e, partitions, w') =>
          if is_entity_not_found e then
            Some ((logger WARNING (MsgListingFailed database table) ;;;
                   store_and_return database table only_first_value partitions) w')
          else Some (Raise e, w')
      end
  end.

(** Truth value of what [get_partition] returns: [None] is false, a
    response dictionary is true (it always has its two keys). *)
Definition truthy (r : option get_partition_response) : bool :=
  match r with
  | Some _ => true
  | None => false
  end.

(** [CatalogInterface.create_partition] *)
Definition create_partition (database table : string) (partition : list pyval)
    (location : string) : M Svc unit :=
  client_glue <- get_client ;;
  found <- get_partition database table partition ;;
  if truthy found then
    logger WARNING MsgAlreadyExists
  else
    let partition := map str partition in
    try_except
      (logger DEBUG (MsgCreating partition location) ;;;
       response <- client_create_partition database table
                     (create_input partition location) ;;
       if HTTPStatusCode response =? 200 then logger DEBUG MsgCreated
       else ret tt)
      (λ _, true)
      (λ e, logger ERROR (MsgCreateFailed partition database table) ;;;
            logger ERROR (MsgException e)).

(** [CatalogInterface.update_partition] *)
Definition update_partition (database table : string) (partition : list pyval)
    (location : string) : M Svc unit :=
  client_glue <- get_client ;;
  let partition := map str partition in
  try_except
    (response <- client_update_partition database table partition
                   (update_input partition location) ;;
     if HTTPStatusCode response =? 200 then logger DEBUG MsgUpdated
     else logger ERROR (MsgUpdateStatus (HTTPStatusCode response)))
    (λ _, true)
    (λ e, logger ERROR (MsgUpdateFailed partition database table) ;;;
          logger ERROR (MsgException e)).

(** [CatalogInterface.get_last_partition] *)
Definition get_last_partition (fuel : nat) (database table : string)
    (only_first_value : bool) (w : World Svc) : option (result entry * World Svc) :=
  match get_all_partitions fuel database table only_first_value w with
  | None => None
  | Some (Raise e, w') => Some (Raise e, w')
  | Some (Ok partitions, w') => Some (item0 partitions, w')
  end.
End Operations.

(** ** An in-memory catalog

    One implementation of [GlueService], used to run the client: tables of
    partition records, listed in insertion order in pages of at most
    [page_limit] entries, the continuation token being the decimal offset of
    the next page.  [outage], when set, makes every call raise it;
    [write_status] is the HTTP status reported for an accepted write (200 on
    the real service). *)
Module MemGlue.

Record catalog := {
  tables : list (string * string * list partition_record);
  page_limit : nat;
  outage : option exn;
  write_status : Z
}.

Definition same_table (database table : string)
    (e : string * string * list partition_record) : bool :=
  String.eqb (fst (fst e)) database && String.eqb (snd (fst e)) table.

Definition find_table (database table : string) (c : catalog)
    : option (list partition_record) :=
  snd <$> List.find (same_table database table) (tables c).

Definition put_table (database table : string) (rows : list partition_record)
    (c : catalog) : catalog :=
  {| tables := map (λ e, if same_table database table e
                         then (database, table, rows) else e) (tables c);
     page_limit := page_limit c;
     outage := outage c;
     write_status := write_status c |}.

Definition has_values (values : list string) (p : partition_record) : bool :=
  bool_decide (Values p = values).

Definition offset_of_token (token : string) : option nat :=
  if String.eqb token "" then Some O
  else Nat.of_uint <$> NilZero.uint_of_string token.

Definition token_of_offset (n : nat) : string :=
  NilZero.string_of_uint (Nat.to_uint n).

Definition answer {A} (c : catalog) (r : result A * catalog) : result A * catalog :=
  match outage c with
  | Some e => (Raise e, c)
  | None => r
  end.

Definition get_partition (database table : string) (values : list string)
    (c : catalog) : result get_partition_response * catalog :=
  answer c
    match find_table database table c with
    | None => (Raise EntityNotFoundException, c)
    | Some rows =>
        match List.find (has_values values) rows with
        | None => (Raise EntityNotFoundException, c)
        | Some p => (Ok {| Partition := p |}, c)
        end
    end.

Definition get_partitions (database table : string) (max_results : Z)
    (exclude_column_schema : bool) (token : string) (c : catalog)
    : result get_partitions_response * catalog :=
  answer c
    match find_table database table c with
    | None => (Raise EntityNotFoundException, c)
    | Some rows =>
        match offset_of_token token with
        | None => (Raise (OtherException "InvalidInputException"), c)
        | Some offset =>
            let size := Nat.min (Z.to_nat max_results) (page_limit c) in
            let next := (offset + size)%nat in
            (Ok {| Partitions := take size (drop offset rows);
                   NextToken := if (next <? length rows)%nat
                                then Some (token_of_offset next) else None |}, c)
        end
    end.

Definition create_partition (database table : string) (input : partition_record)
    (c : catalog) : result write_response * catalog :=
  answer c
    match find_table database table c with
    | None => (Raise EntityNotFoundException, c)
    | Some rows =>
        match List.find (has_values (Values input)) rows with
        | Some _ => (Raise (OtherException "AlreadyExistsException"), c)
        | None =>
            (Ok {| HTTPStatusCode := write_status c |},
             put_table database table (rows ++ [input]) c)
        end
    end.

Definition update_partition (database table : string) (values : list string)
    (input : partition_record) (c : catalog) : result write_response * catalog :=
  answer c
    match find_table database table c with
    | None => (Raise EntityNotFoundException, c)
    | Some rows =>
        match List.find (has_values values) rows with
        | None => (Raise EntityNotFoundException, c)
        | Some _ =>
            (Ok {| HTTPStatusCode := write_status c |},
             put_table database table
               (map (λ p, if has_values values p then input else p) rows) c)
        end
    end.

#[global] Instance service : GlueService catalog := {|
  glue_get_partition := get_partition;
  glue_get_partitions := get_partitions;
  glue_create_partition := create_partition;
  glue_update_partition := update_partition
|}.

(** A process that has not used the client yet. *)
Definition fresh (c : catalog) : World catalog :=
  {| _client_glue := None; _cache := ∅; glue := c; logged := []; calls := [] |}.

Definition row (values : list string) : partition_record :=
  update_input values "s3://bucket/data".

(** The table of the specification's scenario: three partitions of
    [sales.transactions], listed two to a page in insertion order. *)
Definition sales : catalog :=
  {| tables := [("sales", "transactions",
                 [row ["2024"; "03"]; row ["2024"; "01"]; row ["2024"; "02"]])];
     page_limit := 2;
     outage := None;
     write_status := 200 |}.

(** A table whose first-value order differs from its insertion order,
    listed one partition to a page. *)
Definition events : catalog :=
  {| tables := [("logs", "events", [row ["2024-01"]; row ["2024-02"]])];
     page_limit := 1;
     outage := None;
     write_status := 200 |}.

(** A table with no partitions. *)
Definition empty_table : catalog :=
  {| tables := [("sales", "returns", [])];
     page_limit := 2;
     outage := None;
     write_status := 200 |}.

(** A catalog that refuses every call. *)
Definition denied : catalog :=
  {| tables := [("sales", "transactions", [row ["2024"; "03"]])];
     page_limit := 2;
     outage := Some (OtherException "AccessDeniedException");
     write_status := 200 |}.

(** A catalog that accepts writes but reports them with status 202. *)
Definition lagging : catalog :=
  {| tables := [("sales", "transactions", [row ["2024"; "03"]])];
     page_limit := 2;
     outage := None;
     write_status := 202 |}.

(** The process over [sales] after [sales.transactions] was listed. *)
Definition listed : World catalog :=
  {| _client_glue := Some "glue";
     _cache := {["sales.transactions" :=
                   [["2024"; "03"]; ["2024"; "01"]; ["2024"; "02"]]]};
     glue := sales;
     logged := [];
     calls := [GetPartitions "sales" "transactions" 500 true "";
               GetPartitions "sales" "transactions" 500 true "2"] |}.

End MemGlue.

(** ** Notions used to state the properties *)

Section Notions.
Context {Svc : Type} `{GlueService Svc}.

(** The process once the client exists: what [get_client] leaves. *)
Definition started (w : World Svc) : World Svc :=
  snd (get_client w).

(** The calls of the public interface, and the process after one of them
    whether it returned or raised ([None]: it has not ended within
    [fuel] rounds of pagination). *)
Inductive op :=
| DoGetPartition (database table : string) (partition : list pyval)
| DoGetAllPartitions (database table : string) (only_first_value : bool)
| DoCreatePartition (database table : string) (partition : list pyval) (location : string)
| DoUpdatePartition (database table : string) (partition : list pyval) (location : string)
| DoGetLastPartition (database table : string) (only_first_value : bool).

Definition run (fuel : nat) (o : op) (w : World Svc) : option (World Svc) :=
  match o with
  | DoGetPartition d t p => Some (snd (get_partition d t p w))
  | DoGetAllPartitions d t b => snd <$> get_all_partitions fuel d t b w
  | DoCreatePartition d t p l => Some (snd (create_partition d t p l w))
  | DoUpdatePartition d t p l => Some (snd (update_partition d t p l w))
  | DoGetLastPartition d t b => snd <$> get_last_partition fuel d t b w
  end.

Fixpoint run_all (fuel : nat) (os : list op) (w : World Svc) : option (World Svc) :=
  match os with
  | [] => Some w
  | o :: os' =>
      match run fuel o w with
      | Some w' => run_all fuel os' w'
      | None => None
      end
  end.

(** From state [s] and continuation token [token], the service lists the
    table in exactly the pages [pages]: each but the last comes with a
    token, the last with none; [s'] is the state after the last. *)
Inductive serves_pages (database table : string)
    : string → Svc → list (list partition_record) → Svc → Prop :=
| serves_last token s page s' :
    glue_get_partitions database table 500 true token s
      = (Ok {| Partitions := page; NextToken := None |}, s') →
    serves_pages database table token s [page] s'
| serves_more token s page token' s1 pages s' :
    glue_get_partitions database table 500 true token s
      = (Ok {| Partitions := page; NextToken := Some token' |}, s1) →
    serves_pages database table token' s1 pages s' →
    serves_pages database table token s (page :: pages) s'.

(** A listing request for one page of the table. *)
Definition is_page_request (database table : string) (c : call) : Prop :=
  ∃ token, c = GetPartitions database table 500 true token.
End Notions.

(** What a listing with [only_first_value=False] gives, turned into what
    the same listing gives with [only_first_value=True]. *)
Definition projected (l : listing) : result listing :=
  match l with
  | FirstValues vs => Ok (FirstValues vs)
  | Keys ks =>
      match first_components ks with
      | Ok vs => Ok (FirstValues vs)
      | Raise e => Raise e
      end
  end.

(** What a listing returns from the stored keys [ks]. *)
Definition from_cache (only_first_value : bool) (ks : list (list string)) : result listing :=
  if only_first_value then projected (Keys ks) else Ok (Keys ks).

(** Keys in descending order of their first value.  Keys without a first
    value do not occur in a stored list; they count as out of order. *)
Definition first_ge (a b : list string) : bool :=
  match a, b with
  | x :: _, y :: _ => negb (String.ltb x y)
  | _, _ => false
  end.

Fixpoint descending (l : list (list string)) : bool :=
  match l with
  | [] => true
  | a :: l' =>
      match l' with
      | [] => true
      | b :: _ => first_ge a b && descending l'
      end
  end.

(** The first values of a list of keyed entries never increase. *)
Fixpoint keys_descending {A} (l : list (string * A)) : bool :=
  match l with
  | [] => true
  | x :: l' =>
      match l' with
      | [] => true
      | y :: _ => negb (String.ltb (fst x) (fst y)) && keys_descending l'
      end
  end.

(** The keys one page contributes to a listing: those of its entries,
    sorted.  (A page with an entry that has no value contributes nothing:
    sorting it raises.) *)
Definition page_keys (page : list partition_record) : list (list string) :=
  match sorted_by_first_value page with
  | Ok sorted => map Values sorted
  | Raise _ => []
  end.

(** ** Further notions: interrupted listings, well-formed caches, names *)

Section MoreNotions.
Context {Svc : Type} `{GlueService Svc}.

(** From state [s] and token [token] the service answers the requests
    [reqs] with the pages [pages], every one with a continuation token;
    the next request would carry [token'] and find the service in [s']. *)
Inductive serves_prefix (database table : string)
    : string → Svc → list (list partition_record) → list call → string → Svc → Prop :=
| prefix_done token s :
    serves_prefix database table token s [] [] token s
| prefix_more token s page next s1 pages reqs token' s' :
    glue_get_partitions database table 500 true token s
      = (Ok {| Partitions := page; NextToken := Some next |}, s1) →
    serves_prefix database table next s1 pages reqs token' s' →
    serves_prefix database table token s (page :: pages)
      (GetPartitions database table 500 true token :: reqs) token' s'.

(** The process after the service took the calls [reqs] and reached [s]. *)
Definition requested (reqs : list call) (s : Svc) (w : World Svc) : World Svc :=
  {| _client_glue := _client_glue w; _cache := _cache w; glue := s;
     logged := logged w; calls := calls w ++ reqs |}.

(** Every stored key has a first component. *)
Definition cache_ok (w : World Svc) : Prop :=
  ∀ k ks, _cache w !! k = Some ks → Forall (λ key, key ≠ []) ks.
End MoreNotions.

(** A name without a dot. *)
Fixpoint dot_free (s : string) : bool :=
  match s with
  | EmptyString => true
  | String c s' => negb (Ascii.eqb c "."%char) && dot_free s'
  end.

(** The key has [v] as its first component. *)
Definition has_first (v : string) (k : list string) : bool :=
  match k with
  | x :: _ => String.eqb x v
  | [] => false
  end.

(** The keyed entry has [v] as its key. *)
Definition keyed {A} (v : string) (x : string * A) : bool :=
  String.eqb (fst x) v.

(** The create requests among the calls. *)
Definition create_requests (cs : list call) : list call :=
  List.filter is_create cs.

(** A catalog that never finishes a listing: its pages are empty and
    every one comes with a token. *)
Definition stuck_catalog : MemGlue.catalog :=
  {| MemGlue.tables := [("sales", "transactions", [MemGlue.row ["2024"; "03"]])];
     MemGlue.page_limit := 0;
     MemGlue.outage := None;
     MemGlue.write_status := 200 |}.

(** A table listed in one page, its partitions out of order. *)
Definition monthly_catalog : MemGlue.catalog :=
  {| MemGlue.tables := [("logs", "events",
                         [MemGlue.row ["2024-01"]; MemGlue.row ["2024-03"];
                          MemGlue.row ["2024-02"]])];
     MemGlue.page_limit := 500;
     MemGlue.outage := None;
     MemGlue.write_status := 200 |}.

(** Two tables whose names give the same cache key. *)
Definition dotted_catalog : MemGlue.catalog :=
  {| MemGlue.tables := [("a.b", "c", [MemGlue.row ["2024"]]);
                        ("a", "b.c", [MemGlue.row ["1999"]])];
     MemGlue.page_limit := 2;
     MemGlue.outage := None;
     MemGlue.write_status := 200 |}.

(** A table with an entry that has no value, after one that has. *)
Definition ragged_catalog : MemGlue.catalog :=
  {| MemGlue.tables := [("sales", "transactions",
                         [MemGlue.row ["2024"; "03"]; MemGlue.row []])];
     MemGlue.page_limit := 1;
     MemGlue.outage := None;
     MemGlue.write_status := 200 |}.

(** * Properties *)

Section Basics.
Context {Svc : Type} `{GlueService Svc}.

Lemma get_client_started (w : World Svc) :
  ∃ c, get_client w = (Ok c, started w).
Proof.
  unfold started, get_client. destruct (_client_glue w); eauto.
Qed.

Lemma started_cache (w : World Svc) : _cache (started w) = _cache w.
Proof. unfold started, get_client. by destruct (_client_glue w). Qed.

Lemma started_glue (w : World Svc) : glue (started w) = glue w.
Proof. unfold started, get_client. by destruct (_client_glue w). Qed.

Lemma started_logged (w : World Svc) : logged (started w) = logged w.
Proof. unfold started, get_client. by destruct (_client_glue w). Qed.

Lemma started_calls (w : World Svc) : calls (started w) = calls w.
Proof. unfold started, get_client. by destruct (_client_glue w). Qed.

Lemma started_client (w : World Svc) : is_Some (_client_glue (started w)).
Proof. unfold started, get_client. destruct (_client_glue w) eqn:E; simpl; eauto. Qed.

Lemma started_id (w : World Svc) : is_Some (_client_glue w) → started w = w.
Proof. intros [c Hc]. unfold started, get_client. by rewrite Hc. Qed.

Lemma started_started (w : World Svc) : started (started w) = started w.
Proof. apply started_id, started_client. Qed.

(** [get_partition] in full: one request, answered by the service. *)
Lemma get_partition_unfold database table partition (w : World Svc) :
  get_partition database table partition w =
    let c := GetPartition database table (map str partition) in
    match glue_get_partition database table (map str partition) (glue w) with
    | (Ok r, s) => (Ok (Some r), served c s (started w))
    | (Raise e, s) =>
        if is_entity_not_found e then
          (Ok None,
           add_log WARNING (MsgPartitionMissing (map str partition) database table)
                   (served c s (started w)))
        else (Raise e, served c s (started w))
    end.
Proof.
  destruct (get_client_started w) as [c Hc].
  unfold get_partition, bind, try_except, client_get_partition, request, logger, ret.
  rewrite Hc, started_glue.
  destruct (glue_get_partition _ _ _ _) as [[r|e] s]; [done|].
  by destruct (is_entity_not_found e).
Qed.
End Basics.

Section Writes.
Context {Svc : Type} `{GlueService Svc}.

(** [create_partition] in full: the existence check, then, when the check
    found nothing, the create request inside its [try]. *)
Lemma create_partition_unfold database table partition location (w : World Svc) :
  create_partition database table partition location w =
    let p := map str partition in
    let get := GetPartition database table p in
    let put := CreatePartition database table (create_input p location) in
    match glue_get_partition database table p (glue w) with
    | (Ok r, s) =>
        (Ok tt, add_log WARNING MsgAlreadyExists (served get s (started w)))
    | (Raise e, s) =>
        if is_entity_not_found e then
          let w1 := add_log DEBUG (MsgCreating p location)
                      (add_log WARNING (MsgPartitionMissing p database table)
                         (served get s (started w))) in
          match glue_create_partition database table (create_input p location) s with
          | (Ok response, s2) =>
              (Ok tt,
               if HTTPStatusCode response =? 200
               then add_log DEBUG MsgCreated (served put s2 w1)
               else served put s2 w1)
          | (Raise e2, s2) =>
              (Ok tt,
               add_log ERROR (MsgException e2)
                 (add_log ERROR (MsgCreateFailed p database table) (served put s2 w1)))
          end
        else (Raise e, served get s (started w))
    end.
Proof.
  destruct (get_client_started w) as [c Hc].
  unfold create_partition, bind at 1. rewrite Hc.
  unfold bind at 1. rewrite get_partition_unfold, started_started, started_glue.
  cbv zeta.
  destruct (glue_get_partition _ _ _ _) as [[r|e] s]; [done|].
  destruct (is_entity_not_found e); [|done].
  unfold truthy, try_except, bind, logger, client_create_partition, request, ret.
  simpl.
  destruct (glue_create_partition _ _ _ _) as [[response|e2] s2]; [|done].
  by destruct (HTTPStatusCode response =? 200).
Qed.

(** [update_partition] in full: one request inside its [try]. *)
Lemma update_partition_unfold database table partition location (w : World Svc) :
  update_partition database table partition location w =
    let p := map str partition in
    let put := UpdatePartition database table p (update_input p location) in
    match glue_update_partition database table p (update_input p location) (glue w) with
    | (Ok response, s) =>
        (Ok tt,
         if HTTPStatusCode response =? 200
         then add_log DEBUG MsgUpdated (served put s (started w))
         else add_log ERROR (MsgUpdateStatus (HTTPStatusCode response))
                      (served put s (started w)))
    | (Raise e, s) =>
        (Ok tt,
         add_log ERROR (MsgException e)
           (add_log ERROR (MsgUpdateFailed p database table) (served put s (started w))))
    end.
Proof.
  destruct (get_client_started w) as [c Hc].
  unfold update_partition, bind at 1. rewrite Hc.
  unfold try_except, bind, logger, client_update_partition, request, ret.
  rewrite started_glue. cbv zeta.
  destruct (glue_update_partition _ _ _ _) as [[response|e] s]; [|done].
  by destruct (HTTPStatusCode response =? 200).
Qed.

(** C4. When the service answers the lookup of a key with its not-found
    error (the key is not in the table), [get_partition] returns [None]
    and raises nothing: the one request is issued, one warning naming the
    key and the table is logged, and nothing else changes. *)
Theorem get_partition_absent database table partition (w : World Svc) s :
  glue_get_partition database table (map str partition) (glue w)
    = (Raise EntityNotFoundException, s) →
  get_partition database table partition w =
    (Ok None,
     add_log WARNING (MsgPartitionMissing (map str partition) database table)
       (served (GetPartition database table (map str partition)) s (started w))).
Proof.
  intros Hget. rewrite get_partition_unfold. cbv zeta. rewrite Hget. reflexivity.
Qed.

(** C10. When the existence check of [create_partition] fails with a
    service error other than not-found, that error is raised to the
    caller of [create_partition]: only the lookup was issued, no create
    request follows and nothing is logged. *)
Theorem create_partition_check_raises database table partition location
    (w : World Svc) e s :
  glue_get_partition database table (map str partition) (glue w) = (Raise e, s) →
  e ≠ EntityNotFoundException →
  create_partition database table partition location w =
    (Raise e, served (GetPartition database table (map str partition)) s (started w)).
Proof.
  intros Hget Hne. rewrite create_partition_unfold. cbv zeta. rewrite Hget.
  destruct e; simpl; congruence.
Qed.
End Writes.

Section WriteContracts.
Context {Svc : Type} `{GlueService Svc}.

Lemma create_partition_client database table partition location (w : World Svc) :
  is_Some (_client_glue (snd (create_partition database table partition location w))).
Proof.
  rewrite create_partition_unfold. cbv zeta.
  pose proof (started_client w) as Hc.
  destruct (glue_get_partition _ _ _ _) as [[r|e] s]; [done|].
  destruct (is_entity_not_found e); [|done].
  destruct (glue_create_partition _ _ _ _) as [[response|e2] s2]; [|done].
  by destruct (HTTPStatusCode response =? 200).
Qed.

(** C5. [create_partition] begins with the existence check: its first
    request is the lookup of the key.  Whenever the service reports the
    partition as existing, the call logs one warning and returns without
    raising and without a create request.  So a second call with the same
    arguments, made when the partition exists after the first, is a
    no-op: it returns normally, the service sees the lookup only, and the
    create requests issued so far stay as they were. *)
Theorem create_partition_existing database table partition location (w : World Svc) :
  let p := map str partition in
  let get := GetPartition database table p in
  (∃ rest, calls (snd (create_partition database table partition location w))
           = (calls w ++ get :: rest)%list)
  ∧ (∀ r s,
       glue_get_partition database table p (glue w) = (Ok r, s) →
       create_partition database table partition location w
         = (Ok tt, add_log WARNING MsgAlreadyExists (served get s (started w))))
  ∧ (∀ w1 r s,
       w1 = snd (create_partition database table partition location w) →
       glue_get_partition database table p (glue w1) = (Ok r, s) →
       let second := create_partition database table partition location w1 in
       second = (Ok tt, add_log WARNING MsgAlreadyExists (served get s w1))
       ∧ List.filter is_create (calls (snd second)) = List.filter is_create (calls w1)).
Proof.
  cbv zeta.
  assert (Hexists : ∀ (w0 : World Svc) r s,
    glue_get_partition database table (map str partition) (glue w0) = (Ok r, s) →
    create_partition database table partition location w0
      = (Ok tt, add_log WARNING MsgAlreadyExists
                  (served (GetPartition database table (map str partition)) s (started w0)))).
  { intros w0 r s Hget. rewrite create_partition_unfold. cbv zeta. by rewrite Hget. }
  split; [|split].
  - rewrite create_partition_unfold. cbv zeta.
    destruct (glue_get_partition _ _ _ _) as [[r|e] s]; simpl.
    + rewrite started_calls. eauto.
    + destruct (is_entity_not_found e); simpl; [|rewrite started_calls; eauto].
      destruct (glue_create_partition _ _ _ _) as [[response|e2] s2]; simpl.
      * destruct (HTTPStatusCode response =? 200); simpl;
          rewrite started_calls, <- app_assoc; simpl; eauto.
      * rewrite started_calls, <- app_assoc; simpl; eauto.
  - exact (Hexists w).
  - intros w1 r s -> Hget.
    rewrite (Hexists _ r s Hget).
    rewrite (started_id _ (create_partition_client _ _ _ _ w)).
    split; [done|]. simpl.
    rewrite List.filter_app. simpl. by rewrite app_nil_r.
Qed.

(** C8, as the code has it.  [update_partition] returns [None] without
    raising whatever the service does: an exception raised by the update
    request is logged at error level (the key and table, then the
    exception), a response with a status other than 200 is logged at error
    level with its status.  In [create_partition] an exception raised by
    the create request is logged the same way and the call returns [None].
    [create_partition] does not always return [None]: it returns [None]
    unless its existence check raised an error other than not-found, and
    then it raises that error, no create request having been made. *)
Theorem write_failures_logged database table partition location (w : World Svc) :
  let p := map str partition in
  let get := GetPartition database table p in
  let create := CreatePartition database table (create_input p location) in
  let update := UpdatePartition database table p (update_input p location) in
  fst (update_partition database table partition location w) = Ok tt
  ∧ (∀ e s,
       glue_update_partition database table p (update_input p location) (glue w)
         = (Raise e, s) →
       update_partition database table partition location w
         = (Ok tt,
            add_log ERROR (MsgException e)
              (add_log ERROR (MsgUpdateFailed p database table)
                 (served update s (started w)))))
  ∧ (∀ response s,
       glue_update_partition database table p (update_input p location) (glue w)
         = (Ok response, s) →
       HTTPStatusCode response ≠ 200 →
       update_partition database table partition location w
         = (Ok tt,
            add_log ERROR (MsgUpdateStatus (HTTPStatusCode response))
              (served update s (started w))))
  ∧ (∀ e s s2,
       glue_get_partition database table p (glue w)
         = (Raise EntityNotFoundException, s) →
       glue_create_partition database table (create_input p location) s
         = (Raise e, s2) →
       create_partition database table partition location w
         = (Ok tt,
            add_log ERROR (MsgException e)
              (add_log ERROR (MsgCreateFailed p database table)
                 (served create s2
                    (add_log DEBUG (MsgCreating p location)
                       (add_log WARNING (MsgPartitionMissing p database table)
                          (served get s (started w))))))))
  ∧ (fst (create_partition database table partition location w) = Ok tt
     ∨ ∃ e s,
         glue_get_partition database table p (glue w) = (Raise e, s)
         ∧ e ≠ EntityNotFoundException
         ∧ create_partition database table partition location w
             = (Raise e, served get s (started w))).
Proof.
  cbv zeta. repeat split.
  - rewrite update_partition_unfold. cbv zeta.
    by destruct (glue_update_partition _ _ _ _) as [[response|e] s].
  - intros e s Hput. rewrite update_partition_unfold. cbv zeta. by rewrite Hput.
  - intros response s Hput Hstatus. rewrite update_partition_unfold. cbv zeta.
    rewrite Hput. by destruct (Z.eqb_spec (HTTPStatusCode response) 200).
  - intros e s s2 Hget Hput. rewrite create_partition_unfold. cbv zeta.
    rewrite Hget. simpl. by rewrite Hput.
  - rewrite create_partition_unfold. cbv zeta.
    destruct (glue_get_partition _ _ _ _) as [[r|e] s]; [by left|].
    destruct e; simpl.
    + destruct (glue_create_partition _ _ _ _) as [[response|e2] s2]; by left.
    + right. by eexists _, _.
    + right. by eexists _, _.
Qed.
End WriteContracts.

(** ** Sorting one page *)

Section SortFacts.
Context {A : Type}.
Implicit Types (x : string * A) (l : list (string * A)).

Lemma insert_desc_perm x l : insert_desc x l ≡ₚ x :: l.
Proof.
  induction l as [|y l IH]; simpl; [done|].
  destruct (String.ltb x.1 y.1); [|done].
  rewrite IH. apply Permutation_swap.
Qed.

Lemma sort_desc_perm l : sort_desc l ≡ₚ l.
Proof.
  induction l as [|x l IH]; simpl; [done|].
  by rewrite insert_desc_perm, IH.
Qed.

Lemma sort_desc_length l : length (sort_desc l) = length l.
Proof. apply Permutation_length, sort_desc_perm. Qed.
End SortFacts.

Lemma ltb_asym (a b : string) : String.ltb a b = true → String.ltb b a = false.
Proof.
  unfold String.ltb. rewrite (String.compare_antisym a b).
  by destruct (String.compare b a).
Qed.

Lemma insert_desc_descending {A} (x : string * A) l :
  keys_descending l = true → keys_descending (insert_desc x l) = true.
Proof.
  induction l as [|y l IH]; simpl; [done|].
  intros Hl. destruct (String.ltb x.1 y.1) eqn:Hxy.
  - destruct l as [|z l]; simpl in *.
    + by rewrite (ltb_asym _ _ Hxy).
    + apply andb_true_iff in Hl as [Hyz Hl].
      specialize (IH Hl).
      destruct (String.ltb x.1 z.1) eqn:Hxz.
      * by rewrite Hyz.
      * by rewrite (ltb_asym _ _ Hxy).
  - simpl. rewrite Hxy. simpl. done.
Qed.

Lemma sort_desc_descending {A} (l : list (string * A)) :
  keys_descending (sort_desc l) = true.
Proof.
  induction l as [|x l IH]; simpl; [done|]. by apply insert_desc_descending.
Qed.

(** Decorating pairs each entry with its first value. *)
Lemma decorate_spec l d :
  decorate l = Ok d →
  map snd d = l ∧ Forall (λ kx, Values (snd kx) = fst kx :: tail (Values (snd kx))) d.
Proof.
  revert d. induction l as [|x l IH]; simpl; intros d Hd.
  - by inversion Hd.
  - unfold first_value in Hd. destruct (Values x) as [|v vs] eqn:Hx; [done|].
    destruct (decorate l) as [d'|]; [|done].
    inversion Hd; subst. destruct (IH d' eq_refl) as [Hl Hall].
    simpl. split; [by rewrite Hl|]. constructor; [|done]. simpl. by rewrite Hx.
Qed.

Lemma decorate_total l :
  Forall (λ x, Values x ≠ []) l → ∃ d, decorate l = Ok d.
Proof.
  induction 1 as [|x l Hx _ [d Hd]]; simpl; [eauto|].
  unfold first_value. destruct (Values x); [done|]. rewrite Hd. eauto.
Qed.

(** A sorted page holds the entries of the page, each with a first value,
    in descending order of it. *)
Lemma sorted_by_first_value_spec l page :
  sorted_by_first_value l = Ok page →
  page ≡ₚ l ∧ Forall (λ x, Values x ≠ []) page ∧ descending (map Values page) = true.
Proof.
  unfold sorted_by_first_value. destruct (decorate l) as [d|] eqn:Hd; [|done].
  intros [= <-]. destruct (decorate_spec _ _ Hd) as [Hl Hall].
  assert (Hall' : Forall (λ kx : string * partition_record,
            Values kx.2 = kx.1 :: tail (Values kx.2)) (sort_desc d)).
  { by rewrite sort_desc_perm. }
  split; [|split].
  - by rewrite sort_desc_perm, Hl.
  - apply Forall_fmap. eapply Forall_impl; [exact Hall'|].
    simpl. intros kx Hkx. congruence.
  - pose proof (sort_desc_descending d) as Hs.
    induction (sort_desc d) as [|x s IH]; [done|].
    destruct s as [|y s]; [done|]. simpl in *.
    apply andb_true_iff in Hs as [Hxy Hs].
    inversion Hall' as [|? ? Hx Hrest]; subst.
    inversion Hrest as [|? ? Hy _]; subst.
    apply andb_true_iff. split; [|by apply IH].
    unfold first_ge. by rewrite Hx, Hy.
Qed.

Lemma sorted_by_first_value_total l :
  Forall (λ x, Values x ≠ []) l → ∃ page, sorted_by_first_value l = Ok page.
Proof.
  intros Hl. destruct (decorate_total l Hl) as [d Hd].
  unfold sorted_by_first_value. rewrite Hd. eauto.
Qed.

Lemma first_components_nonempty ks :
  Forall (λ k, k ≠ []) ks → first_components ks = Ok (map (hd "") ks).
Proof.
  induction 1 as [|k ks Hk _ IH]; simpl; [done|].
  destruct k; [done|]. by rewrite IH.
Qed.

(** ** Listing *)

Section Listing.
Context {Svc : Type} `{GlueService Svc}.

Lemma page_keys_spec page :
  Forall (λ x, Values x ≠ []) page →
  page_keys page ≡ₚ map Values page
  ∧ Forall (λ k, k ≠ []) (page_keys page)
  ∧ descending (page_keys page) = true.
Proof.
  intros Hpage. unfold page_keys.
  destruct (sorted_by_first_value_total page Hpage) as [sorted Hs].
  rewrite Hs. destruct (sorted_by_first_value_spec _ _ Hs) as (Hp & Hne & Hd).
  split; [by rewrite Hp|]. split; [|done]. by apply Forall_fmap.
Qed.

(** What the pagination loop leaves alone, and what it adds. *)
Lemma fetch_pages_frame fuel database table token acc (w : World Svc) r ps w' :
  fetch_pages fuel database table token acc w = Some (r, ps, w') →
  _client_glue w' = _client_glue w
  ∧ _cache w' = _cache w
  ∧ logged w' = logged w
  ∧ (∃ reqs, calls w' = (calls w ++ reqs)%list
             ∧ Forall (is_page_request database table) reqs)
  ∧ (Forall (λ k, k ≠ []) acc → Forall (λ k, k ≠ []) ps).
Proof.
  revert token acc w.
  induction fuel as [|fuel IH]; intros token acc w Hf; [done|].
  cbn [fetch_pages] in Hf. unfold client_get_partitions, request in Hf.
  destruct (glue_get_partitions _ _ _ _ _ _) as [[response|e] s].
  - destruct (sorted_by_first_value (Partitions response)) as [page|e] eqn:Hpage.
    + destruct (sorted_by_first_value_spec _ _ Hpage) as (_ & Hne & _).
      destruct (NextToken response) as [token'|].
      * destruct (IH _ _ _ Hf) as (Hc & Hm & Hl & (reqs & Hr & Hq) & Hk).
        simpl in *. repeat split; try done.
        -- exists (GetPartitions database table 500 true token :: reqs).
           split; [by rewrite Hr, <- app_assoc|].
           constructor; [by eexists|done].
        -- intros Hacc. apply Hk, Forall_app. split; [done|by apply Forall_fmap].
      * inversion Hf; subst. simpl. repeat split; try done.
        -- eexists [_]. split; [done|]. constructor; [by eexists|done].
        -- intros Hacc. apply Forall_app. split; [done|by apply Forall_fmap].
    + inversion Hf; subst. simpl. repeat split; try done.
      eexists [_]. split; [done|]. constructor; [by eexists|done].
  - inversion Hf; subst. simpl. repeat split; try done.
    eexists [_]. split; [done|]. constructor; [by eexists|done].
Qed.

(** When the service lists the table in [pages], a loop with a round for
    each page ends normally with the keys of every page, page by page. *)
Lemma fetch_pages_serves database table token s pages s' :
  serves_pages database table token s pages s' →
  Forall (Forall (λ x, Values x ≠ [])) pages →
  ∀ fuel acc (w : World Svc),
    glue w = s →
    (length pages ≤ fuel)%nat →
    ∃ reqs w',
      fetch_pages fuel database table token acc w
        = Some (Ok tt, (acc ++ concat (map page_keys pages))%list, w')
      ∧ glue w' = s'
      ∧ calls w' = (calls w ++ reqs)%list
      ∧ length reqs = length pages.
Proof.
  induction 1 as [token s page s' Hs|token s page token' s1 pages s' Hs _ IH];
    intros Hne fuel acc w Hw Hfuel;
    (destruct fuel as [|fuel]; [simpl in Hfuel; lia|]);
    inversion Hne as [|? ? Hpage Hrest]; subst;
    destruct (sorted_by_first_value_total page Hpage) as [sorted Hsorted];
    cbn [fetch_pages]; unfold client_get_partitions, request;
    rewrite Hs; simpl; rewrite Hsorted.
  - eexists [_], _. unfold page_keys. rewrite Hsorted. simpl.
    rewrite app_nil_r. done.
  - simpl in Hfuel.
    edestruct (IH Hrest fuel (acc ++ map Values sorted)%list
                 (served (GetPartitions database table 500 true token) s1 w))
      as (reqs & w' & Hf & Hg & Hc & Hl); [done|lia|].
    exists (GetPartitions database table 500 true token :: reqs), w'.
    rewrite Hf. unfold page_keys at 2. rewrite Hsorted.
    simpl in Hc. rewrite <- !app_assoc in *. simpl in *.
    repeat split; try done. by rewrite Hl.
Qed.

Lemma store_and_return_spec database table b ps (w : World Svc) :
  store_and_return database table b ps w =
    (from_cache b ps,
     set_cache (<[cache_key database table := ps]> (_cache w)) w).
Proof.
  unfold store_and_return, from_cache, projected.
  destruct b; [|done]. by destruct (first_components ps).
Qed.

(** A listing of a table that is in the cache. *)
Lemma get_all_partitions_hit fuel database table b (w : World Svc) ks :
  _cache w !! cache_key database table = Some ks →
  get_all_partitions fuel database table b w = Some (from_cache b ks, started w).
Proof.
  intros Hhit. destruct (get_client_started w) as [c Hc].
  unfold get_all_partitions. rewrite Hc, started_cache, Hhit.
  unfold from_cache, projected. destruct b; [|done].
  by destruct (first_components ks).
Qed.

(** A listing of a table that is not in the cache. *)
Lemma get_all_partitions_miss fuel database table b (w : World Svc) :
  _cache w !! cache_key database table = None →
  get_all_partitions fuel database table b w =
    match fetch_pages fuel database table "" [] (started w) with
    | None => None
    | Some (Ok _, ps, w') =>
        Some (from_cache b ps,
              set_cache (<[cache_key database table := ps]> (_cache w')) w')
    | Some (Raise e, ps, w') =>
        if is_entity_not_found e then
          let w'' := add_log WARNING (MsgListingFailed database table) w' in
          Some (from_cache b ps,
                set_cache (<[cache_key database table := ps]> (_cache w'')) w'')
        else Some (Raise e, w')
    end.
Proof.
  intros Hmiss. destruct (get_client_started w) as [c Hc].
  unfold get_all_partitions. rewrite Hc, started_cache, Hmiss.
  destruct (fetch_pages _ _ _ _ _ _) as [[[[[]|e] ps] w']|]; [| |done].
  - by rewrite store_and_return_spec.
  - destruct (is_entity_not_found e); [|done].
    unfold bind, logger. by rewrite store_and_return_spec.
Qed.
End Listing.

(** ** What each operation does to the two class attributes *)

Section Frames.
Context {Svc : Type} `{GlueService Svc}.

Lemma get_partition_frame database table partition (w : World Svc) :
  let w' := snd (get_partition database table partition w) in
  _client_glue w' = _client_glue (started w) ∧ _cache w' = _cache w.
Proof.
  cbv zeta. rewrite get_partition_unfold. cbv zeta.
  destruct (glue_get_partition _ _ _ _) as [[r|e] s]; simpl;
    [|destruct (is_entity_not_found e); simpl];
    by rewrite started_cache.
Qed.

Lemma create_partition_frame database table partition location (w : World Svc) :
  let w' := snd (create_partition database table partition location w) in
  _client_glue w' = _client_glue (started w) ∧ _cache w' = _cache w.
Proof.
  cbv zeta. rewrite create_partition_unfold. cbv zeta.
  destruct (glue_get_partition _ _ _ _) as [[r|e] s]; simpl;
    [by rewrite started_cache|].
  destruct (is_entity_not_found e); simpl; [|by rewrite started_cache].
  destruct (glue_create_partition _ _ _ _) as [[response|e2] s2]; simpl;
    [destruct (HTTPStatusCode response =? 200); simpl|];
    by rewrite started_cache.
Qed.

Lemma update_partition_frame database table partition location (w : World Svc) :
  let w' := snd (update_partition database table partition location w) in
  _client_glue w' = _client_glue (started w) ∧ _cache w' = _cache w.
Proof.
  cbv zeta. rewrite update_partition_unfold. cbv zeta.
  destruct (glue_update_partition _ _ _ _) as [[response|e] s]; simpl;
    [destruct (HTTPStatusCode response =? 200); simpl|];
    by rewrite started_cache.
Qed.

(** A listing leaves the cache as it is on a hit and when it raises;
    otherwise it adds the entry of the table listed. *)
Lemma get_all_partitions_frame fuel database table b (w : World Svc) r w' :
  get_all_partitions fuel database table b w = Some (r, w') →
  _client_glue w' = _client_glue (started w)
  ∧ (_cache w' = _cache w
     ∨ _cache w !! cache_key database table = None
       ∧ ∃ ks, Forall (λ k, k ≠ []) ks
               ∧ _cache w' = <[cache_key database table := ks]> (_cache w)).
Proof.
  destruct (_cache w !! cache_key database table) as [ks|] eqn:Hc.
  - rewrite (get_all_partitions_hit _ _ _ _ _ _ Hc). intros [= <- <-].
    split; [done|]. left. apply started_cache.
  - rewrite (get_all_partitions_miss _ _ _ _ _ Hc).
    destruct (fetch_pages _ _ _ _ _ _) as [[[[[]|e] ps] w1]|] eqn:Hf; [| |done].
    + destruct (fetch_pages_frame _ _ _ _ _ _ _ _ _ Hf) as (Hcl & Hm & _ & _ & Hne).
      intros [= <- <-]. simpl. split; [done|]. right. split; [done|].
      exists ps. split; [by apply Hne|]. by rewrite Hm, started_cache.
    + destruct (fetch_pages_frame _ _ _ _ _ _ _ _ _ Hf) as (Hcl & Hm & _ & _ & Hne).
      destruct (is_entity_not_found e).
      * intros [= <- <-]. simpl. split; [done|]. right. split; [done|].
        exists ps. split; [by apply Hne|]. by rewrite Hm, started_cache.
      * intros [= <- <-]. split; [done|]. left. by rewrite Hm, started_cache.
Qed.

Lemma get_last_partition_world fuel database table b (w : World Svc) :
  snd <$> get_last_partition fuel database table b w
    = snd <$> get_all_partitions fuel database table b w.
Proof.
  unfold get_last_partition.
  by destruct (get_all_partitions _ _ _ _ _) as [[[l|e] w']|].
Qed.

(** No call of the interface removes or changes an entry of the cache,
    and the client, once created, stays. *)
Lemma run_frame fuel o (w w' : World Svc) :
  run fuel o w = Some w' →
  _client_glue w' = _client_glue (started w)
  ∧ ∀ k ks, _cache w !! k = Some ks → _cache w' !! k = Some ks.
Proof.
  assert (Hlisting : ∀ database table b,
    snd <$> get_all_partitions fuel database table b w = Some w' →
    _client_glue w' = _client_glue (started w)
    ∧ ∀ k ks, _cache w !! k = Some ks → _cache w' !! k = Some ks).
  { intros database table b Hrun.
    destruct (get_all_partitions _ _ _ _ _) as [[r w1]|] eqn:Hg; [|done].
    injection Hrun as ->.
    destruct (get_all_partitions_frame _ _ _ _ _ _ _ Hg)
      as [Hcl [Hm|[Hmiss (ps & _ & Hm)]]]; split; try done.
    - intros k ks. by rewrite Hm.
    - intros k ks Hk. rewrite Hm. rewrite lookup_insert_ne; [done|].
      intros <-. congruence. }
  destruct o as [d t p|d t b|d t p l|d t p l|d t b]; simpl.
  - intros [= <-]. destruct (get_partition_frame d t p w) as [Hc Hm].
    split; [done|]. intros k ks. by rewrite Hm.
  - apply Hlisting.
  - intros [= <-]. destruct (create_partition_frame d t p l w) as [Hc Hm].
    split; [done|]. intros k ks. by rewrite Hm.
  - intros [= <-]. destruct (update_partition_frame d t p l w) as [Hc Hm].
    split; [done|]. intros k ks. by rewrite Hm.
  - rewrite get_last_partition_world. apply Hlisting.
Qed.

Lemma run_all_frame fuel os (w w' : World Svc) :
  run_all fuel os w = Some w' →
  is_Some (_client_glue w) →
  is_Some (_client_glue w')
  ∧ ∀ k ks, _cache w !! k = Some ks → _cache w' !! k = Some ks.
Proof.
  revert w. induction os as [|o os IH]; simpl; intros w Hrun Hc.
  - by injection Hrun as ->.
  - destruct (run fuel o w) as [w1|] eqn:Ho; [|done].
    destruct (run_frame _ _ _ _ Ho) as [Hc1 Hm1].
    rewrite (started_id _ Hc) in Hc1.
    destruct (IH _ Hrun) as [Hc' Hm']; [by rewrite Hc1|].
    split; [done|]. intros k ks Hk. by apply Hm', Hm1.
Qed.
End Frames.

(** ** The listing contracts *)

Section ListingContracts.
Context {Svc : Type} `{GlueService Svc}.

Lemma page_keys_concat pages :
  Forall (Forall (λ x, Values x ≠ [])) pages →
  concat (map page_keys pages) ≡ₚ concat (map (map Values) pages)
  ∧ Forall (λ k, k ≠ []) (concat (map page_keys pages)).
Proof.
  induction 1 as [|page pages Hpage _ [IHp IHn]]; simpl; [done|].
  destruct (page_keys_spec page Hpage) as (Hp & Hn & _).
  split; [by rewrite Hp, IHp|]. apply Forall_app. done.
Qed.

(** A listing of an uncached table that the service serves in [pages]. *)
Lemma listing_of_pages fuel database table b (w : World Svc) pages s' :
  _cache w !! cache_key database table = None →
  serves_pages database table "" (glue w) pages s' →
  Forall (Forall (λ x, Values x ≠ [])) pages →
  (length pages ≤ fuel)%nat →
  let ks := concat (map page_keys pages) in
  ∃ reqs w',
    get_all_partitions fuel database table b w
      = Some (Ok (if b then FirstValues (map (hd "") ks) else Keys ks), w')
    ∧ _cache w' = <[cache_key database table := ks]> (_cache w)
    ∧ glue w' = s'
    ∧ logged w' = logged w
    ∧ calls w' = (calls w ++ reqs)%list
    ∧ length reqs = length pages
    ∧ Forall (is_page_request database table) reqs.
Proof.
  intros Hmiss Hserves Hpages Hfuel ks.
  destruct (fetch_pages_serves _ _ _ _ _ _ Hserves Hpages fuel [] (started w))
    as (reqs & w1 & Hf & Hg & Hc & Hl); [apply started_glue|done|].
  destruct (fetch_pages_frame _ _ _ _ _ _ _ _ _ Hf)
    as (_ & Hm & Hlog & (reqs' & Hc' & Hreq) & _).
  assert (reqs' = reqs) as -> by (eapply app_inv_head; by rewrite <- Hc, <- Hc').
  rewrite started_calls in Hc. rewrite started_cache in Hm.
  rewrite started_logged in Hlog.
  exists reqs, (set_cache (<[cache_key database table := ks]> (_cache w1)) w1).
  rewrite (get_all_partitions_miss _ _ _ _ _ Hmiss), Hf. simpl.
  split; [|by rewrite Hm].
  unfold from_cache, projected. destruct b; [|done].
  fold ks. rewrite first_components_nonempty; [done|].
  by apply page_keys_concat.
Qed.

(** C7. On a cache miss, when the service lists the table in N pages
    (each but the last with a continuation token), [get_all_partitions]
    ends after N requests, each asking for at most 500 entries of that
    table, and returns one entry for each partition of each page: the
    length of its result is the total number of partitions of the pages.
    (A partition has at least one value.) *)
Theorem listing_aggregates_pages fuel database table b (w : World Svc) pages s' :
  _cache w !! cache_key database table = None →
  serves_pages database table "" (glue w) pages s' →
  Forall (Forall (λ x, Values x ≠ [])) pages →
  (length pages ≤ fuel)%nat →
  ∃ l ks reqs w',
    get_all_partitions fuel database table b w = Some (Ok l, w')
    ∧ l = (if b then FirstValues (map (hd "") ks) else Keys ks)
    ∧ ks ≡ₚ concat (map (map Values) pages)
    ∧ length (entries l) = length (concat pages)
    ∧ _cache w' !! cache_key database table = Some ks
    ∧ glue w' = s'
    ∧ calls w' = (calls w ++ reqs)%list
    ∧ length reqs = length pages
    ∧ Forall (λ c, ∃ token, c = GetPartitions database table 500 true token) reqs.
Proof.
  intros Hmiss Hserves Hpages Hfuel.
  destruct (listing_of_pages fuel database table b w pages s' Hmiss Hserves Hpages Hfuel)
    as (reqs & w' & Hg & Hm & Hs & _ & Hc & Hl & Hr).
  destruct (page_keys_concat pages Hpages) as [Hperm _].
  eexists _, (concat (map page_keys pages)), reqs, w'.
  split; [exact Hg|]. split; [done|]. split; [done|].
  split; [|by rewrite Hm, lookup_insert_eq].
  assert (length (concat (map page_keys pages)) = length (concat pages)) as Hlen.
  { rewrite Hperm, <- concat_map. apply length_map. }
  destruct b; simpl; by rewrite !length_map.
Qed.

(** C1. [get_last_partition] returns the first element of what
    [get_all_partitions] returns for the same arguments, and raises
    [IndexError] when that listing is empty; in particular for an
    uncached table of which the service lists no partition. *)
Theorem get_last_partition_first fuel database table b (w : World Svc) :
  (∀ l w',
     get_all_partitions fuel database table b w = Some (Ok l, w') →
     get_last_partition fuel database table b w
       = Some (match entries l with
               | x :: _ => Ok x
               | [] => Raise IndexError
               end, w')
     ∧ (entries l = [] →
        get_last_partition fuel database table b w = Some (Raise IndexError, w')))
  ∧ (∀ s,
       _cache w !! cache_key database table = None →
       glue_get_partitions database table 500 true "" (glue w)
         = (Ok {| Partitions := []; NextToken := None |}, s) →
       (1 ≤ fuel)%nat →
       ∃ w', get_last_partition fuel database table b w = Some (Raise IndexError, w')).
Proof.
  split.
  - intros l w' Hg. unfold get_last_partition, item0. rewrite Hg.
    split; [done|]. by intros ->.
  - intros s Hmiss Hs Hfuel.
    destruct (listing_of_pages fuel database table b w [[]] s Hmiss)
      as (reqs & w' & Hg & _); [by apply serves_last|by repeat constructor|done|].
    exists w'. unfold get_last_partition. rewrite Hg. by destruct b.
Qed.

(** C3. From the same state, the listing with [only_first_value=True] is
    the listing with [only_first_value=False] with each key replaced by
    its first component, in the same order, and the two leave the same
    state, on a cache hit and on a cache miss alike. *)
Theorem first_values_of_listing fuel database table (w : World Svc) :
  get_all_partitions fuel database table true w
    = match get_all_partitions fuel database table false w with
      | None => None
      | Some (Raise e, w') => Some (Raise e, w')
      | Some (Ok l, w') => Some (projected l, w')
      end
  ∧ (∀ l w',
       get_all_partitions fuel database table false w = Some (Ok l, w') →
       ∃ ks, l = Keys ks
             ∧ (Forall (λ k, k ≠ []) ks →
                get_all_partitions fuel database table true w
                  = Some (Ok (FirstValues (map (hd "") ks)), w'))
             ∧ (_cache w !! cache_key database table = None →
                Forall (λ k, k ≠ []) ks)).
Proof.
  destruct (_cache w !! cache_key database table) as [ks|] eqn:Hc.
  - rewrite !(get_all_partitions_hit _ _ _ _ _ _ Hc). simpl.
    split; [done|]. intros l w' [= <- <-]. exists ks.
    split; [done|]. split; [|done].
    intros Hne. unfold projected. by rewrite first_components_nonempty.
  - rewrite !(get_all_partitions_miss _ _ _ _ _ Hc).
    destruct (fetch_pages _ _ _ _ _ _) as [[[[[]|e] ps] w1]|] eqn:Hf; [| |done].
    + destruct (fetch_pages_frame _ _ _ _ _ _ _ _ _ Hf) as (_ & _ & _ & _ & Hne).
      simpl. split; [done|]. intros l w' [= <- <-]. exists ps.
      split; [done|]. split; [|by intros _; apply Hne].
      intros _. unfold projected. rewrite first_components_nonempty; [done|].
      by apply Hne.
    + destruct (fetch_pages_frame _ _ _ _ _ _ _ _ _ Hf) as (_ & _ & _ & _ & Hne).
      destruct (is_entity_not_found e); [|done]. simpl.
      split; [done|]. intros l w' [= <- <-]. exists ps.
      split; [done|]. split; [|by intros _; apply Hne].
      intros _. unfold projected. rewrite first_components_nonempty; [done|].
      by apply Hne.
Qed.
(** A table the service lists in one page is stored in descending order of
    the first values: then the first stored key is the greatest. *)
Lemma single_page_listing_descending fuel database table b (w : World Svc) page s' :
  _cache w !! cache_key database table = None →
  glue_get_partitions database table 500 true "" (glue w)
    = (Ok {| Partitions := page; NextToken := None |}, s') →
  Forall (λ x, Values x ≠ []) page →
  (1 ≤ fuel)%nat →
  ∃ l ks w',
    get_all_partitions fuel database table b w = Some (Ok l, w')
    ∧ _cache w' !! cache_key database table = Some ks
    ∧ ks ≡ₚ map Values page
    ∧ descending ks = true.
Proof.
  intros Hmiss Hs Hpage Hfuel.
  destruct (listing_of_pages fuel database table b w [page] s' Hmiss)
    as (reqs & w' & Hg & Hm & _); [by apply serves_last|by repeat constructor|done|].
  destruct (page_keys_spec page Hpage) as (Hperm & _ & Hdesc).
  eexists _, (page_keys page), w'. split; [exact Hg|].
  simpl in *. rewrite app_nil_r in *.
  split; [by rewrite Hm, lookup_insert_eq|]. done.
Qed.
End ListingContracts.

(** ** The cache *)

Section CacheContracts.
Context {Svc : Type} `{GlueService Svc}.

(** A listing that returns leaves the table in the cache, with the keys
    it returned. *)
Lemma listing_populates fuel database table b (w : World Svc) l w1 :
  get_all_partitions fuel database table b w = Some (Ok l, w1) →
  is_Some (_client_glue w1)
  ∧ ∃ ks, _cache w1 !! cache_key database table = Some ks
          ∧ from_cache b ks = Ok l
          ∧ (_cache w !! cache_key database table = None →
             _cache w1 = <[cache_key database table := ks]> (_cache w)).
Proof.
  intros Hg.
  destruct (get_all_partitions_frame _ _ _ _ _ _ _ Hg) as [Hcl _].
  split; [rewrite Hcl; apply started_client|]. clear Hcl.
  destruct (_cache w !! cache_key database table) as [ks|] eqn:Hc.
  - rewrite (get_all_partitions_hit _ _ _ _ _ _ Hc) in Hg.
    injection Hg as Hl <-. exists ks. by rewrite started_cache.
  - rewrite (get_all_partitions_miss _ _ _ _ _ Hc) in Hg.
    destruct (fetch_pages _ _ _ _ _ _) as [[[[[]|e] ps] w']|] eqn:Hf; [| |done].
    + destruct (fetch_pages_frame _ _ _ _ _ _ _ _ _ Hf) as (_ & Hm & _).
      injection Hg as Hl <-. exists ps. simpl.
      rewrite lookup_insert_eq, Hm, started_cache. done.
    + destruct (fetch_pages_frame _ _ _ _ _ _ _ _ _ Hf) as (_ & Hm & _).
      destruct (is_entity_not_found e); [|done].
      injection Hg as Hl <-. exists ps. simpl.
      rewrite lookup_insert_eq, Hm, started_cache. done.
Qed.

(** C6. Once a listing of a table has returned, the table is in the
    cache, and after any further calls of the interface every listing of
    that table returns the stored keys (themselves, or their first
    components) and leaves the process exactly as it found it: no request
    is issued, not even one round of pagination is needed, and the entry
    is the one the first listing stored. *)
Theorem listing_is_cached fuel database table b (w : World Svc) l w1 :
  get_all_partitions fuel database table b w = Some (Ok l, w1) →
  ∃ ks,
    _cache w1 !! cache_key database table = Some ks
    ∧ from_cache b ks = Ok l
    ∧ ∀ fuel' os w2,
        run_all fuel' os w1 = Some w2 →
        _cache w2 !! cache_key database table = Some ks
        ∧ ∀ fuel'' b',
            get_all_partitions fuel'' database table b' w2
              = Some (from_cache b' ks, w2).
Proof.
  intros Hg.
  destruct (listing_populates _ _ _ _ _ _ _ Hg) as (Hcl & ks & Hks & Hl & _).
  exists ks. split; [done|]. split; [done|].
  intros fuel' os w2 Hrun.
  destruct (run_all_frame _ _ _ _ Hrun Hcl) as [Hcl2 Hm2].
  split; [by apply Hm2|].
  intros fuel'' b'.
  rewrite (get_all_partitions_hit _ _ _ _ _ ks); [|by apply Hm2].
  by rewrite (started_id _ Hcl2).
Qed.

(** C9. [get_partition], [create_partition] and [update_partition] leave
    the cache as it is, whatever the service answers.  A listing changes
    it only on a miss, by adding the entry of the table listed.  So after
    a create or an update, a listing of a cached table still returns the
    keys stored before. *)
Theorem cache_written_by_listing_miss_only database table partition location
    (w : World Svc) :
  let key := cache_key database table in
  let created := snd (create_partition database table partition location w) in
  let updated := snd (update_partition database table partition location w) in
  _cache (snd (get_partition database table partition w)) = _cache w
  ∧ _cache created = _cache w
  ∧ _cache updated = _cache w
  ∧ (∀ fuel b r w',
       get_all_partitions fuel database table b w = Some (r, w') →
       is_Some (_cache w !! key) →
       _cache w' = _cache w)
  ∧ (∀ fuel b l w',
       get_all_partitions fuel database table b w = Some (Ok l, w') →
       _cache w !! key = None →
       ∃ ks, _cache w' = <[key := ks]> (_cache w))
  ∧ (∀ ks fuel b,
       _cache w !! key = Some ks →
       get_all_partitions fuel database table b created
         = Some (from_cache b ks, created)
       ∧ get_all_partitions fuel database table b updated
         = Some (from_cache b ks, updated)).
Proof.
  cbv zeta.
  destruct (get_partition_frame database table partition w) as [_ Hget].
  destruct (create_partition_frame database table partition location w) as [Hcc Hcreate].
  destruct (update_partition_frame database table partition location w) as [Huc Hupdate].
  repeat split; try done.
  - intros fuel b r w' Hg [ks Hks].
    rewrite (get_all_partitions_hit _ _ _ _ _ _ Hks) in Hg.
    injection Hg as _ <-. apply started_cache.
  - intros fuel b l w' Hg Hmiss.
    destruct (listing_populates _ _ _ _ _ _ _ Hg) as (_ & ks & _ & _ & Hm).
    exists ks. by apply Hm.
  - rewrite (get_all_partitions_hit _ _ _ _ _ ks); [|by rewrite Hcreate].
    rewrite started_id; [done|]. rewrite Hcc. apply started_client.
  - rewrite (get_all_partitions_hit _ _ _ _ _ ks); [|by rewrite Hupdate].
    rewrite started_id; [done|]. rewrite Huc. apply started_client.
Qed.
End CacheContracts.

(** * The client on the in-memory catalog *)

Section Runs.
Import MemGlue.

Example listing_sales :
  get_all_partitions 2 "sales" "transactions" false (fresh sales)
    = Some (Ok (Keys [["2024"; "03"]; ["2024"; "01"]; ["2024"; "02"]]), listed).
Proof. vm_compute. reflexivity. Qed.

Example last_partition_sales :
  get_last_partition 2 "sales" "transactions" true (fresh sales)
    = Some (Ok (FirstValue "2024"), listed).
Proof. vm_compute. reflexivity. Qed.

Example listing_needs_a_round_per_page :
  get_all_partitions 1 "sales" "transactions" false (fresh sales) = None.
Proof. vm_compute. reflexivity. Qed.

(** C2. The order of a stored list is that of each page, not of the whole
    list: over a table whose two partitions the service lists one to a
    page, the older one first, the listing stores them in that order,
    which is not descending, and [get_last_partition] returns the older
    one. *)
Theorem cache_order_is_per_page :
  ∃ w',
    get_all_partitions 2 "logs" "events" false (fresh events)
      = Some (Ok (Keys [["2024-01"]; ["2024-02"]]), w')
    ∧ _cache w' !! cache_key "logs" "events" = Some [["2024-01"]; ["2024-02"]]
    ∧ descending [["2024-01"]; ["2024-02"]] = false
    ∧ get_last_partition 2 "logs" "events" true (fresh events)
      = Some (Ok (FirstValue "2024-01"), w').
Proof.
  eexists. split; [vm_compute; reflexivity|].
  split; [vm_compute; reflexivity|].
  split; vm_compute; reflexivity.
Qed.
End Runs.

(** ** The in-memory catalog as a service

    On a catalog that is up, a key that is not among the rows of its table
    is answered with the not-found error, and a partition that was created
    is found afterwards. *)

Section Catalog.
Implicit Types (c : MemGlue.catalog) (rows : list partition_record).

Lemma same_table_same database table rows :
  MemGlue.same_table database table (database, table, rows) = true.
Proof. unfold MemGlue.same_table. simpl. by rewrite !String.eqb_refl. Qed.

Lemma find_table_put database table rows rows' c :
  MemGlue.find_table database table c = Some rows →
  MemGlue.find_table database table (MemGlue.put_table database table rows' c)
    = Some rows'.
Proof.
  unfold MemGlue.find_table, MemGlue.put_table. simpl.
  induction (MemGlue.tables c) as [|e l IH]; simpl; [done|].
  destruct (MemGlue.same_table database table e) eqn:He; simpl.
  - by rewrite same_table_same.
  - by rewrite He.
Qed.

Lemma find_appended values rows input :
  List.find (MemGlue.has_values values) rows = None →
  Values input = values →
  List.find (MemGlue.has_values values) (rows ++ [input])%list = Some input.
Proof.
  intros Hnone Hvalues. induction rows as [|p rows IH]; simpl in *.
  - unfold MemGlue.has_values. by rewrite bool_decide_eq_true_2.
  - destruct (MemGlue.has_values values p); [done|]. by apply IH.
Qed.

(** On a catalog that is up, [get_partition] returns [None] for every key
    that is not in the table. *)
Lemma get_partition_absent_in_catalog database table partition c rows :
  MemGlue.outage c = None →
  MemGlue.find_table database table c = Some rows →
  List.find (MemGlue.has_values (map str partition)) rows = None →
  fst (get_partition database table partition (MemGlue.fresh c)) = Ok None.
Proof.
  intros Hup Htable Habsent. rewrite get_partition_unfold. cbv zeta.
  simpl. unfold MemGlue.get_partition, MemGlue.answer.
  by rewrite Hup, Htable, Habsent.
Qed.

(** On a catalog that is up, creating a partition that is not in its table
    adds it, and a second call with the same arguments issues the lookup
    only: the catalog holds the partition once. *)
Lemma create_partition_twice_in_catalog database table partition location c rows :
  MemGlue.outage c = None →
  MemGlue.write_status c = 200 →
  MemGlue.find_table database table c = Some rows →
  List.find (MemGlue.has_values (map str partition)) rows = None →
  let input := create_input (map str partition) location in
  let w1 := snd (create_partition database table partition location (MemGlue.fresh c)) in
  let w2 := snd (create_partition database table partition location w1) in
  MemGlue.find_table database table (glue w1) = Some (rows ++ [input])%list
  ∧ glue w2 = glue w1
  ∧ List.filter is_create (calls w2) = [CreatePartition database table input]
  ∧ fst (create_partition database table partition location w1) = Ok tt.
Proof.
  intros Hup Hstatus Htable Habsent. cbv zeta.
  assert (Hfirst : create_partition database table partition location (MemGlue.fresh c)
    = (Ok tt,
       add_log DEBUG MsgCreated
         (served (CreatePartition database table (create_input (map str partition) location))
            (MemGlue.put_table database table
               (rows ++ [create_input (map str partition) location])%list c)
            (add_log DEBUG (MsgCreating (map str partition) location)
               (add_log WARNING (MsgPartitionMissing (map str partition) database table)
                  (served (GetPartition database table (map str partition)) c
                     (started (MemGlue.fresh c)))))))).
  { rewrite create_partition_unfold. cbv zeta. simpl.
    unfold MemGlue.get_partition, MemGlue.create_partition, MemGlue.answer.
    rewrite Hup, Htable, Habsent. simpl. rewrite Htable. simpl.
    rewrite Habsent. simpl. rewrite Hup. simpl. by rewrite Hstatus. }
  rewrite Hfirst. simpl.
  pose proof (find_table_put database table rows
                (rows ++ [create_input (map str partition) location])%list c Htable) as Hput.
  split; [done|].
  rewrite create_partition_unfold. cbv zeta. simpl.
  unfold MemGlue.get_partition, MemGlue.answer. simpl.
  rewrite Hup, Hput,
    (find_appended _ _ (create_input (map str partition) location) Habsent eq_refl).
  simpl.
  done.
Qed.
End Catalog.

(** ** The contracts at concrete inputs *)

(** C4 on [sales]: the key (2025, 01) is not in the table. *)
Lemma get_partition_absent_run :
  glue_get_partition "sales" "transactions" (map str [PyInt 2025; PyStr "01"])
      (glue (MemGlue.fresh MemGlue.sales))
    = (Raise EntityNotFoundException, MemGlue.sales)
  ∧ get_partition "sales" "transactions" [PyInt 2025; PyStr "01"]
      (MemGlue.fresh MemGlue.sales)
    = (Ok None,
       add_log WARNING (MsgPartitionMissing ["2025"; "01"] "sales" "transactions")
         (served (GetPartition "sales" "transactions" ["2025"; "01"]) MemGlue.sales
            (started (MemGlue.fresh MemGlue.sales)))).
Proof.
  split; [reflexivity|].
  apply (get_partition_absent "sales" "transactions" [PyInt 2025; PyStr "01"]
           (MemGlue.fresh MemGlue.sales) MemGlue.sales).
  reflexivity.
Defined.

(** C10 on [denied]: the existence check is refused. *)
Lemma create_partition_check_raises_run :
  glue_get_partition "sales" "transactions" (map str [PyStr "2024"; PyStr "03"])
      (glue (MemGlue.fresh MemGlue.denied))
    = (Raise (OtherException "AccessDeniedException"), MemGlue.denied)
  ∧ OtherException "AccessDeniedException" ≠ EntityNotFoundException
  ∧ create_partition "sales" "transactions" [PyStr "2024"; PyStr "03"] "s3://bucket/new"
      (MemGlue.fresh MemGlue.denied)
    = (Raise (OtherException "AccessDeniedException"),
       served (GetPartition "sales" "transactions" ["2024"; "03"]) MemGlue.denied
         (started (MemGlue.fresh MemGlue.denied))).
Proof.
  split; [reflexivity|]. split; [discriminate|].
  apply (create_partition_check_raises "sales" "transactions"
           [PyStr "2024"; PyStr "03"] "s3://bucket/new"
           (MemGlue.fresh MemGlue.denied)
           (OtherException "AccessDeniedException") MemGlue.denied).
  - reflexivity.
  - discriminate.
Defined.

(** C5 on [sales]: the key (2024, 03) exists, so creating it is refused
    with a warning; the key (2025, 01) does not, so the first call creates
    it and the second does nothing. *)
Lemma create_partition_existing_run :
  let get03 := GetPartition "sales" "transactions" ["2024"; "03"] in
  let get25 := GetPartition "sales" "transactions" ["2025"; "01"] in
  let w := MemGlue.fresh MemGlue.sales in
  let w1 := snd (create_partition "sales" "transactions" [PyInt 2025; PyStr "01"]
                   "s3://bucket/new" w) in
  create_partition "sales" "transactions" [PyStr "2024"; PyStr "03"] "s3://bucket/new" w
    = (Ok tt, add_log WARNING MsgAlreadyExists (served get03 MemGlue.sales (started w)))
  ∧ List.filter is_create (calls w1)
    = [CreatePartition "sales" "transactions" (create_input ["2025"; "01"] "s3://bucket/new")]
  ∧ create_partition "sales" "transactions" [PyInt 2025; PyStr "01"] "s3://bucket/new" w1
    = (Ok tt, add_log WARNING MsgAlreadyExists (served get25 (glue w1) w1))
  ∧ List.filter is_create
      (calls (snd (create_partition "sales" "transactions" [PyInt 2025; PyStr "01"]
                     "s3://bucket/new" w1)))
    = List.filter is_create (calls w1).
Proof.
  cbv zeta.
  split.
  { apply (proj1 (proj2 (create_partition_existing "sales" "transactions"
             [PyStr "2024"; PyStr "03"] "s3://bucket/new" (MemGlue.fresh MemGlue.sales)))
             {| Partition := MemGlue.row ["2024"; "03"] |} MemGlue.sales).
    reflexivity. }
  split; [reflexivity|].
  apply (proj2 (proj2 (create_partition_existing "sales" "transactions"
           [PyInt 2025; PyStr "01"] "s3://bucket/new" (MemGlue.fresh MemGlue.sales)))
           _ {| Partition := create_input ["2025"; "01"] "s3://bucket/new" |} _ eq_refl).
  vm_compute. reflexivity.
Defined.

(** C8: an update of a key that is not in the table, an update reported
    with status 202, and a create in a table that does not exist. *)
Lemma write_failures_logged_run :
  let p := ["2025"; "01"] in
  let q := ["2024"; "03"] in
  let w := MemGlue.fresh MemGlue.sales in
  let v := MemGlue.fresh MemGlue.lagging in
  let changed :=
    {| MemGlue.tables := [("sales", "transactions", [update_input q "s3://bucket/new"])];
       MemGlue.page_limit := 2;
       MemGlue.outage := None;
       MemGlue.write_status := 202 |} in
  update_partition "sales" "transactions" [PyInt 2025; PyStr "01"] "s3://bucket/new" w
    = (Ok tt,
       add_log ERROR (MsgException EntityNotFoundException)
         (add_log ERROR (MsgUpdateFailed p "sales" "transactions")
            (served (UpdatePartition "sales" "transactions" p
                       (update_input p "s3://bucket/new"))
                    MemGlue.sales (started w))))
  ∧ update_partition "sales" "transactions" [PyStr "2024"; PyStr "03"] "s3://bucket/new" v
    = (Ok tt,
       add_log ERROR (MsgUpdateStatus 202)
         (served (UpdatePartition "sales" "transactions" q
                    (update_input q "s3://bucket/new"))
                 changed (started v)))
  ∧ create_partition "sales" "refunds" [PyInt 2025; PyStr "01"] "s3://bucket/new" w
    = (Ok tt,
       add_log ERROR (MsgException EntityNotFoundException)
         (add_log ERROR (MsgCreateFailed p "sales" "refunds")
            (served (CreatePartition "sales" "refunds" (create_input p "s3://bucket/new"))
               MemGlue.sales
               (add_log DEBUG (MsgCreating p "s3://bucket/new")
                  (add_log WARNING (MsgPartitionMissing p "sales" "refunds")
                     (served (GetPartition "sales" "refunds" p) MemGlue.sales
                        (started w))))))).
Proof.
  cbv zeta. split; [|split].
  - apply (proj1 (proj2 (write_failures_logged "sales" "transactions"
             [PyInt 2025; PyStr "01"] "s3://bucket/new" (MemGlue.fresh MemGlue.sales)))).
    reflexivity.
  - apply (proj1 (proj2 (proj2 (write_failures_logged "sales" "transactions"
             [PyStr "2024"; PyStr "03"] "s3://bucket/new" (MemGlue.fresh MemGlue.lagging))))
             {| HTTPStatusCode := 202 |}).
    + reflexivity.
    + simpl. lia.
  - apply (proj1 (proj2 (proj2 (proj2 (write_failures_logged "sales" "refunds"
             [PyInt 2025; PyStr "01"] "s3://bucket/new" (MemGlue.fresh MemGlue.sales)))))).
    + reflexivity.
    + reflexivity.
Defined.

(** C8 as stated fails on [denied]: [create_partition] does not return
    [None] there, it raises what the existence check raised. *)
Lemma create_partition_may_raise :
  fst (create_partition "sales" "transactions" [PyInt 2025; PyStr "01"] "s3://bucket/new"
         (MemGlue.fresh MemGlue.denied))
    = Raise (OtherException "AccessDeniedException")
  ∧ ¬ (∀ database table partition location (w : World MemGlue.catalog),
         fst (create_partition database table partition location w) = Ok tt).
Proof.
  split; [reflexivity|].
  intros Hall.
  specialize (Hall "sales" "transactions" [PyInt 2025; PyStr "01"] "s3://bucket/new"
                (MemGlue.fresh MemGlue.denied)).
  vm_compute in Hall. discriminate.
Qed.

(** C1 on [empty_table] (nothing to return) and on [sales]. *)
Lemma get_last_partition_first_run :
  let w := MemGlue.fresh MemGlue.empty_table in
  let w' := set_cache {["sales.returns" := []]}
              (served (GetPartitions "sales" "returns" 500 true "")
                      MemGlue.empty_table (started w)) in
  get_all_partitions 1 "sales" "returns" true w = Some (Ok (FirstValues []), w')
  ∧ get_last_partition 1 "sales" "returns" true w = Some (Raise IndexError, w')
  ∧ get_last_partition 2 "sales" "transactions" false (MemGlue.fresh MemGlue.sales)
    = Some (Ok (Key ["2024"; "03"]), MemGlue.listed)
  ∧ ∃ w'', get_last_partition 1 "sales" "returns" false w = Some (Raise IndexError, w'').
Proof.
  cbv zeta.
  assert (Hg : get_all_partitions 1 "sales" "returns" true
                 (MemGlue.fresh MemGlue.empty_table)
               = Some (Ok (FirstValues []),
                       set_cache {["sales.returns" := []]}
                         (served (GetPartitions "sales" "returns" 500 true "")
                            MemGlue.empty_table
                            (started (MemGlue.fresh MemGlue.empty_table)))))
    by (vm_compute; reflexivity).
  split; [exact Hg|]. split; [|split].
  - apply (proj2 (proj1 (get_last_partition_first 1 "sales" "returns" true
                           (MemGlue.fresh MemGlue.empty_table)) _ _ Hg)).
    reflexivity.
  - refine (proj1 (proj1 (get_last_partition_first 2 "sales" "transactions" false
                            (MemGlue.fresh MemGlue.sales))
                     (Keys [["2024"; "03"]; ["2024"; "01"]; ["2024"; "02"]])
                     MemGlue.listed _)).
    vm_compute. reflexivity.
  - apply (proj2 (get_last_partition_first 1 "sales" "returns" false
                    (MemGlue.fresh MemGlue.empty_table)) MemGlue.empty_table).
    + vm_compute. reflexivity.
    + reflexivity.
    + simpl. lia.
Defined.

(** C3 on [sales], from a process that has not listed the table yet and
    from one that has. *)
Lemma first_values_of_listing_run :
  get_all_partitions 2 "sales" "transactions" false (MemGlue.fresh MemGlue.sales)
    = Some (Ok (Keys [["2024"; "03"]; ["2024"; "01"]; ["2024"; "02"]]), MemGlue.listed)
  ∧ get_all_partitions 2 "sales" "transactions" true (MemGlue.fresh MemGlue.sales)
    = Some (Ok (FirstValues ["2024"; "2024"; "2024"]), MemGlue.listed)
  ∧ get_all_partitions 0 "sales" "transactions" true MemGlue.listed
    = Some (Ok (FirstValues ["2024"; "2024"; "2024"]), MemGlue.listed).
Proof.
  split; [vm_compute; reflexivity|]. split.
  - destruct (proj2 (first_values_of_listing 2 "sales" "transactions"
                       (MemGlue.fresh MemGlue.sales))
                (Keys [["2024"; "03"]; ["2024"; "01"]; ["2024"; "02"]]) MemGlue.listed)
      as (ks & Hks & Htrue & _); [vm_compute; reflexivity|].
    injection Hks as <-. apply Htrue. repeat constructor; discriminate.
  - destruct (proj2 (first_values_of_listing 0 "sales" "transactions" MemGlue.listed)
                (Keys [["2024"; "03"]; ["2024"; "01"]; ["2024"; "02"]]) MemGlue.listed)
      as (ks & Hks & Htrue & _); [vm_compute; reflexivity|].
    injection Hks as <-. apply Htrue. repeat constructor; discriminate.
Defined.

(** C7 on [sales]: three partitions in two pages. *)
Lemma listing_aggregates_pages_run :
  let pages := [[MemGlue.row ["2024"; "03"]; MemGlue.row ["2024"; "01"]];
                [MemGlue.row ["2024"; "02"]]] in
  let w := MemGlue.fresh MemGlue.sales in
  _cache w !! cache_key "sales" "transactions" = None
  ∧ serves_pages "sales" "transactions" "" (glue w) pages MemGlue.sales
  ∧ ∃ l ks reqs w',
      get_all_partitions 2 "sales" "transactions" true w = Some (Ok l, w')
      ∧ l = FirstValues (map (hd "") ks)
      ∧ ks ≡ₚ concat (map (map Values) pages)
      ∧ length (entries l) = 3%nat
      ∧ _cache w' !! cache_key "sales" "transactions" = Some ks
      ∧ glue w' = MemGlue.sales
      ∧ calls w' = (calls w ++ reqs)%list
      ∧ length reqs = 2%nat
      ∧ Forall (λ c, ∃ token, c = GetPartitions "sales" "transactions" 500 true token) reqs.
Proof.
  cbv zeta.
  assert (Hserves : serves_pages "sales" "transactions" ""
            (glue (MemGlue.fresh MemGlue.sales))
            [[MemGlue.row ["2024"; "03"]; MemGlue.row ["2024"; "01"]];
             [MemGlue.row ["2024"; "02"]]] MemGlue.sales).
  { apply (serves_more "sales" "transactions" "" MemGlue.sales _ "2" MemGlue.sales);
      [reflexivity|].
    apply serves_last. reflexivity. }
  split; [reflexivity|]. split; [exact Hserves|].
  refine (listing_aggregates_pages 2 "sales" "transactions" true
            (MemGlue.fresh MemGlue.sales)
            [[MemGlue.row ["2024"; "03"]; MemGlue.row ["2024"; "01"]];
             [MemGlue.row ["2024"; "02"]]] MemGlue.sales _ Hserves _ _).
  - reflexivity.
  - repeat constructor; discriminate.
  - simpl. lia.
Defined.

(** C6 on [sales]: after the table was listed, a partition is created and
    the table is listed again, with no round of pagination allowed. *)
Lemma listing_is_cached_run :
  let w1 := MemGlue.listed in
  let old := [["2024"; "03"]; ["2024"; "01"]; ["2024"; "02"]] in
  let os := [DoCreatePartition "sales" "transactions" [PyInt 2025; PyStr "01"]
               "s3://bucket/new";
             DoGetPartition "sales" "transactions" [PyInt 2025; PyStr "01"]] in
  get_all_partitions 2 "sales" "transactions" false (MemGlue.fresh MemGlue.sales)
    = Some (Ok (Keys old), w1)
  ∧ ∃ w2,
      run_all 0 os w1 = Some w2
      ∧ fst (get_partition "sales" "transactions" [PyInt 2025; PyStr "01"] w2)
        = Ok (Some {| Partition := create_input ["2025"; "01"] "s3://bucket/new" |})
      ∧ get_all_partitions 0 "sales" "transactions" false w2 = Some (Ok (Keys old), w2)
      ∧ get_all_partitions 0 "sales" "transactions" true w2
        = Some (Ok (FirstValues ["2024"; "2024"; "2024"]), w2).
Proof.
  cbv zeta.
  assert (Hg : get_all_partitions 2 "sales" "transactions" false
                 (MemGlue.fresh MemGlue.sales)
               = Some (Ok (Keys [["2024"; "03"]; ["2024"; "01"]; ["2024"; "02"]]),
                       MemGlue.listed))
    by (vm_compute; reflexivity).
  split; [exact Hg|].
  destruct (listing_is_cached 2 "sales" "transactions" false
              (MemGlue.fresh MemGlue.sales) _ _ Hg) as (ks & Hks & _ & Hafter).
  vm_compute in Hks. injection Hks as <-.
  eexists. split; [reflexivity|]. split; [vm_compute; reflexivity|].
  split.
  - apply (proj2 (Hafter 0%nat
                    [DoCreatePartition "sales" "transactions" [PyInt 2025; PyStr "01"]
                       "s3://bucket/new";
                     DoGetPartition "sales" "transactions" [PyInt 2025; PyStr "01"]]
                    _ eq_refl) 0%nat false).
  - apply (proj2 (Hafter 0%nat
                    [DoCreatePartition "sales" "transactions" [PyInt 2025; PyStr "01"]
                       "s3://bucket/new";
                     DoGetPartition "sales" "transactions" [PyInt 2025; PyStr "01"]]
                    _ eq_refl) 0%nat true).
Defined.

(** C9 on [listed]: the table is cached; a create and an update of it
    leave the entry, and a listing after either still returns it. *)
Lemma cache_written_by_listing_miss_only_run :
  let w := MemGlue.listed in
  let old := [["2024"; "03"]; ["2024"; "01"]; ["2024"; "02"]] in
  let created := snd (create_partition "sales" "transactions"
                        [PyStr "2024"; PyStr "03"] "s3://bucket/new" w) in
  let updated := snd (update_partition "sales" "transactions"
                        [PyStr "2024"; PyStr "03"] "s3://bucket/new" w) in
  _cache w !! cache_key "sales" "transactions" = Some old
  ∧ _cache created = _cache w
  ∧ _cache updated = _cache w
  ∧ get_all_partitions 0 "sales" "transactions" false created
    = Some (Ok (Keys old), created)
  ∧ get_all_partitions 0 "sales" "transactions" false updated
    = Some (Ok (Keys old), updated)
  ∧ ∃ ks, _cache MemGlue.listed
          = <[cache_key "sales" "transactions" := ks]> (_cache (MemGlue.fresh MemGlue.sales)).
Proof.
  cbv zeta.
  pose proof (cache_written_by_listing_miss_only "sales" "transactions"
                [PyStr "2024"; PyStr "03"] "s3://bucket/new" MemGlue.listed)
    as (_ & Hcreated & Hupdated & _ & _ & Hstale).
  pose proof (cache_written_by_listing_miss_only "sales" "transactions"
                [PyStr "2024"; PyStr "03"] "s3://bucket/new" (MemGlue.fresh MemGlue.sales))
    as (_ & _ & _ & _ & Hmiss & _).
  split; [reflexivity|]. split; [exact Hcreated|]. split; [exact Hupdated|].
  split; [|split].
  - apply (Hstale _ 0%nat false). reflexivity.
  - apply (Hstale _ 0%nat false). reflexivity.
  - apply (Hmiss 2%nat false (Keys [["2024"; "03"]; ["2024"; "01"]; ["2024"; "02"]])).
    + vm_compute. reflexivity.
    + reflexivity.
Defined.

(** * Further properties of the listing *)

Section InterruptedListing.
Context {Svc : Type} `{GlueService Svc}.

Lemma requested_nil (w : World Svc) : requested [] (glue w) w = w.
Proof. destruct w. unfold requested. simpl. by rewrite app_nil_r. Qed.

Lemma requested_served c reqs s1 s (w : World Svc) :
  requested reqs s (served c s1 w) = requested (c :: reqs) s w.
Proof. unfold requested, served. simpl. by rewrite <- app_assoc. Qed.

Lemma served_requested c reqs s1 s (w : World Svc) :
  served c s (requested reqs s1 w) = requested (reqs ++ [c]) s w.
Proof. unfold requested, served. simpl. by rewrite <- app_assoc. Qed.

(** The rounds of the loop that the pages with a token take. *)
Lemma fetch_pages_prefix database table token s pages reqs token' s' :
  serves_prefix database table token s pages reqs token' s' →
  Forall (Forall (λ x, Values x ≠ [])) pages →
  ∀ fuel acc (w : World Svc),
    glue w = s →
    fetch_pages (length pages + fuel) database table token acc w
      = fetch_pages fuel database table token'
          (acc ++ concat (map page_keys pages))%list (requested reqs s' w).
Proof.
  induction 1 as [token s|token s page next s1 pages reqs token' s' Hs _ IH];
    intros Hne fuel acc w Hw.
  - subst s. simpl. by rewrite app_nil_r, requested_nil.
  - inversion Hne as [|? ? Hpage Hrest]; subst.
    destruct (sorted_by_first_value_total page Hpage) as [sorted Hsorted].
    cbn [length Nat.add fetch_pages]. unfold client_get_partitions, request.
    rewrite Hs. simpl. rewrite Hsorted.
    rewrite (IH Hrest fuel _ (served (GetPartitions database table 500 true token) s1 w));
      [|done].
    rewrite requested_served. unfold page_keys at 2. rewrite Hsorted.
    by rewrite <- app_assoc.
Qed.

Lemma valueless_page_raises page :
  Exists (λ x, Values x = []) page →
  sorted_by_first_value page = Raise IndexError.
Proof.
  intros Hex. unfold sorted_by_first_value.
  assert (decorate page = Raise IndexError) as ->; [|done].
  induction Hex as [x l Hx|x l _ IH]; simpl.
  - unfold first_value. by rewrite Hx.
  - unfold first_value. destruct (Values x); [done|]. by rewrite IH.
Qed.

(** A listing of an uncached table, up to the request that follows the
    pages with a token. *)
Lemma listing_after_prefix fuel database table (w : World Svc) pages reqs token s1 :
  _cache w !! cache_key database table = None →
  serves_prefix database table "" (glue w) pages reqs token s1 →
  Forall (Forall (λ x, Values x ≠ [])) pages →
  (length pages < fuel)%nat →
  ∃ k,
    fuel = (length pages + Datatypes.S k)%nat
    ∧ fetch_pages fuel database table "" [] (started w)
      = fetch_pages (Datatypes.S k) database table token
          (concat (map page_keys pages)) (requested reqs s1 (started w)).
Proof.
  intros Hmiss Hprefix Hne Hfuel.
  exists (fuel - length pages - 1)%nat.
  assert (fuel = (length pages + Datatypes.S (fuel - length pages - 1))%nat) as Hk by lia.
  split; [done|]. rewrite Hk at 1.
  by rewrite (fetch_pages_prefix _ _ _ _ _ _ _ _ Hprefix Hne _ [] (started w) (started_glue w)).
Qed.

(** X1. When the service answers a listing request with its not-found
    error, [get_all_partitions] does not raise: it logs one warning and
    returns the keys of the pages received before, now stored in the cache.
    For a table the service does not know that is the empty list, and the
    empty list is what the cache holds for it from then on. *)
Theorem listing_not_found_is_stored fuel database table b (w : World Svc)
    pages reqs token s1 s2 :
  _cache w !! cache_key database table = None →
  serves_prefix database table "" (glue w) pages reqs token s1 →
  Forall (Forall (λ x, Values x ≠ [])) pages →
  glue_get_partitions database table 500 true token s1
    = (Raise EntityNotFoundException, s2) →
  (length pages < fuel)%nat →
  let ks := concat (map page_keys pages) in
  let w' := add_log WARNING (MsgListingFailed database table)
              (requested (reqs ++ [GetPartitions database table 500 true token]) s2
                 (started w)) in
  get_all_partitions fuel database table b w
    = Some (Ok (if b then FirstValues (map (hd "") ks) else Keys ks),
            set_cache (<[cache_key database table := ks]> (_cache w)) w').
Proof.
  intros Hmiss Hprefix Hne Hs Hfuel ks w'.
  destruct (listing_after_prefix fuel database table w pages reqs token s1
              Hmiss Hprefix Hne Hfuel) as (k & _ & Hf).
  rewrite (get_all_partitions_miss _ _ _ _ _ Hmiss), Hf.
  cbn [fetch_pages]. unfold client_get_partitions, request.
  simpl. rewrite Hs. simpl. rewrite served_requested.
  rewrite started_cache. fold ks. fold w'.
  unfold from_cache, projected. destruct b; [|done].
  rewrite first_components_nonempty; [done|].
  by apply page_keys_concat.
Qed.

(** X2. When the service answers a listing request with any other error,
    [get_all_partitions] raises it: nothing is logged, the keys of the pages
    received before are dropped and the cache stays as it was, so the next
    listing of the table asks the service again. *)
Theorem listing_error_stores_nothing fuel database table b (w : World Svc)
    pages reqs token s1 e s2 :
  _cache w !! cache_key database table = None →
  serves_prefix database table "" (glue w) pages reqs token s1 →
  Forall (Forall (λ x, Values x ≠ [])) pages →
  glue_get_partitions database table 500 true token s1 = (Raise e, s2) →
  e ≠ EntityNotFoundException →
  (length pages < fuel)%nat →
  let w' := requested (reqs ++ [GetPartitions database table 500 true token]) s2
              (started w) in
  get_all_partitions fuel database table b w = Some (Raise e, w')
  ∧ _cache w' = _cache w
  ∧ logged w' = logged w.
Proof.
  intros Hmiss Hprefix Hne Hs He Hfuel w'.
  destruct (listing_after_prefix fuel database table w pages reqs token s1
              Hmiss Hprefix Hne Hfuel) as (k & _ & Hf).
  rewrite (get_all_partitions_miss _ _ _ _ _ Hmiss), Hf.
  cbn [fetch_pages]. unfold client_get_partitions, request.
  simpl. rewrite Hs. simpl. rewrite served_requested. fold w'.
  assert (is_entity_not_found e = false) as -> by (by destruct e).
  split; [done|]. unfold w'. simpl.
  by rewrite started_cache, started_logged.
Qed.

(** X3. When a page has an entry without any value, sorting the page raises
    [IndexError] and [get_all_partitions] raises it to its caller: nothing
    is stored, also not the pages before it. *)
Theorem listing_valueless_entry_raises fuel database table b (w : World Svc)
    pages reqs token s1 page next s2 :
  _cache w !! cache_key database table = None →
  serves_prefix database table "" (glue w) pages reqs token s1 →
  Forall (Forall (λ x, Values x ≠ [])) pages →
  glue_get_partitions database table 500 true token s1
    = (Ok {| Partitions := page; NextToken := next |}, s2) →
  Exists (λ x, Values x = []) page →
  (length pages < fuel)%nat →
  let w' := requested (reqs ++ [GetPartitions database table 500 true token]) s2
              (started w) in
  get_all_partitions fuel database table b w = Some (Raise IndexError, w')
  ∧ _cache w' = _cache w.
Proof.
  intros Hmiss Hprefix Hne Hs Hbad Hfuel w'.
  destruct (listing_after_prefix fuel database table w pages reqs token s1
              Hmiss Hprefix Hne Hfuel) as (k & _ & Hf).
  rewrite (get_all_partitions_miss _ _ _ _ _ Hmiss), Hf.
  cbn [fetch_pages]. unfold client_get_partitions, request.
  simpl. rewrite Hs. simpl. rewrite (valueless_page_raises _ Hbad).
  rewrite served_requested. fold w'. simpl.
  split; [done|]. unfold w'. simpl. apply started_cache.
Qed.

Lemma fetch_pages_endless database table (I : string → Svc → Prop) :
  (∀ token s, I token s →
     ∃ page next s',
       glue_get_partitions database table 500 true token s
         = (Ok {| Partitions := page; NextToken := Some next |}, s')
       ∧ Forall (λ x, Values x ≠ []) page
       ∧ I next s') →
  ∀ fuel token acc (w : World Svc),
    I token (glue w) → fetch_pages fuel database table token acc w = None.
Proof.
  intros Hstep. induction fuel as [|fuel IH]; intros token acc w Hi; [done|].
  destruct (Hstep _ _ Hi) as (page & next & s' & Hs & Hpage & Hnext).
  destruct (sorted_by_first_value_total page Hpage) as [sorted Hsorted].
  cbn [fetch_pages]. unfold client_get_partitions, request.
  rewrite Hs. simpl. rewrite Hsorted. by apply IH.
Qed.

(** X4. The pagination has no bound of its own: against a service that
    answers every request of the listing with a page and a continuation
    token, [get_all_partitions] does not end, however many rounds it is
    given. *)
Theorem listing_never_ends database table b (w : World Svc)
    (I : string → Svc → Prop) :
  _cache w !! cache_key database table = None →
  I "" (glue w) →
  (∀ token s, I token s →
     ∃ page next s',
       glue_get_partitions database table 500 true token s
         = (Ok {| Partitions := page; NextToken := Some next |}, s')
       ∧ Forall (λ x, Values x ≠ []) page
       ∧ I next s') →
  ∀ fuel, get_all_partitions fuel database table b w = None.
Proof.
  intros Hmiss Hi Hstep fuel.
  rewrite (get_all_partitions_miss _ _ _ _ _ Hmiss).
  rewrite (fetch_pages_endless database table I Hstep); [done|].
  by rewrite started_glue.
Qed.
End InterruptedListing.

(** X1 on [sales]: the table [sales.refunds] is not in the catalog. *)
Lemma listing_not_found_is_stored_run :
  let w := MemGlue.fresh MemGlue.sales in
  let c := GetPartitions "sales" "refunds" 500 true "" in
  glue_get_partitions "sales" "refunds" 500 true "" MemGlue.sales
    = (Raise EntityNotFoundException, MemGlue.sales)
  ∧ get_all_partitions 1 "sales" "refunds" true w
    = Some (Ok (FirstValues []),
            set_cache (<[cache_key "sales" "refunds" := []]> (_cache w))
              (add_log WARNING (MsgListingFailed "sales" "refunds")
                 (requested [c] MemGlue.sales (started w)))).
Proof.
  cbv zeta. split; [reflexivity|].
  refine (listing_not_found_is_stored 1 "sales" "refunds" true
            (MemGlue.fresh MemGlue.sales) [] [] "" MemGlue.sales MemGlue.sales
            _ _ _ _ _).
  - reflexivity.
  - apply prefix_done.
  - constructor.
  - reflexivity.
  - simpl. lia.
Defined.

(** X2 on [denied]: the listing is refused. *)
Lemma listing_error_stores_nothing_run :
  let w := MemGlue.fresh MemGlue.denied in
  let w' := requested [GetPartitions "sales" "transactions" 500 true ""]
              MemGlue.denied (started w) in
  glue_get_partitions "sales" "transactions" 500 true "" MemGlue.denied
    = (Raise (OtherException "AccessDeniedException"), MemGlue.denied)
  ∧ get_all_partitions 1 "sales" "transactions" false w
    = Some (Raise (OtherException "AccessDeniedException"), w')
  ∧ _cache w' = _cache w
  ∧ logged w' = logged w.
Proof.
  cbv zeta. split; [reflexivity|].
  refine (listing_error_stores_nothing 1 "sales" "transactions" false
            (MemGlue.fresh MemGlue.denied) [] [] "" MemGlue.denied
            (OtherException "AccessDeniedException") MemGlue.denied
            _ _ _ _ _ _).
  - reflexivity.
  - apply prefix_done.
  - constructor.
  - reflexivity.
  - discriminate.
  - simpl. lia.
Defined.

(** X3 on [ragged_catalog]: the second page holds an entry with no value. *)
Lemma listing_valueless_entry_raises_run :
  let w := MemGlue.fresh ragged_catalog in
  let w' := requested [GetPartitions "sales" "transactions" 500 true "";
                       GetPartitions "sales" "transactions" 500 true "1"]
              ragged_catalog (started w) in
  glue_get_partitions "sales" "transactions" 500 true "1" ragged_catalog
    = (Ok {| Partitions := [MemGlue.row []]; NextToken := None |}, ragged_catalog)
  ∧ get_all_partitions 2 "sales" "transactions" false w = Some (Raise IndexError, w')
  ∧ _cache w' = _cache w.
Proof.
  cbv zeta. split; [reflexivity|].
  refine (listing_valueless_entry_raises 2 "sales" "transactions" false
            (MemGlue.fresh ragged_catalog)
            [[MemGlue.row ["2024"; "03"]]]
            [GetPartitions "sales" "transactions" 500 true ""]
            "1" ragged_catalog [MemGlue.row []] None ragged_catalog
            _ _ _ _ _ _).
  - reflexivity.
  - apply (prefix_more "sales" "transactions" "" ragged_catalog _ "1" ragged_catalog);
      [reflexivity|apply prefix_done].
  - repeat constructor; discriminate.
  - reflexivity.
  - constructor. reflexivity.
  - simpl. lia.
Defined.

(** X4 on [stuck_catalog]: every page is empty and comes with the token of
    the same offset. *)
Lemma listing_never_ends_run :
  glue_get_partitions "sales" "transactions" 500 true "" stuck_catalog
    = (Ok {| Partitions := []; NextToken := Some "0" |}, stuck_catalog)
  ∧ glue_get_partitions "sales" "transactions" 500 true "0" stuck_catalog
    = (Ok {| Partitions := []; NextToken := Some "0" |}, stuck_catalog)
  ∧ get_all_partitions 1000 "sales" "transactions" true (MemGlue.fresh stuck_catalog)
    = None.
Proof.
  split; [reflexivity|]. split; [reflexivity|].
  refine (listing_never_ends "sales" "transactions" true (MemGlue.fresh stuck_catalog)
            (λ token s, s = stuck_catalog ∧ (token = "" ∨ token = "0"))
            _ _ _ 1000%nat).
  - reflexivity.
  - split; [reflexivity|by left].
  - intros token s [-> [->| ->]];
      exists [], "0", stuck_catalog; (split; [reflexivity|]);
      (split; [constructor|]); (split; [reflexivity|by right]).
Defined.

(** * The order of a page *)

Lemma ascii_compare_refl a : Ascii.compare a a = Eq.
Proof. unfold Ascii.compare. apply N.compare_refl. Qed.

Lemma ascii_lt_trans a b c :
  Ascii.compare a b = Lt → Ascii.compare b c = Lt → Ascii.compare a c = Lt.
Proof. unfold Ascii.compare. rewrite !N.compare_lt_iff. apply N.lt_trans. Qed.

Lemma string_lt_trans a : ∀ b c,
  String.compare a b = Lt → String.compare b c = Lt → String.compare a c = Lt.
Proof.
  induction a as [|x a IH]; intros [|y b] [|z c]; simpl; try done.
  destruct (Ascii.compare x y) eqn:Hxy; try done;
    destruct (Ascii.compare y z) eqn:Hyz; try done.
  - apply Ascii.compare_eq_iff in Hxy, Hyz. subst.
    rewrite ascii_compare_refl. apply IH.
  - apply Ascii.compare_eq_iff in Hxy. subst. by rewrite Hyz.
  - apply Ascii.compare_eq_iff in Hyz. subst. by rewrite Hxy.
  - by rewrite (ascii_lt_trans _ _ _ Hxy Hyz).
Qed.

Lemma ltb_irrefl (a : string) : String.ltb a a = false.
Proof.
  destruct (String.ltb a a) eqn:Ha; [|done]. by rewrite (ltb_asym _ _ Ha) in Ha.
Qed.

(** "Not less" is transitive: the order of strings is total. *)
Lemma geb_trans (a b c : string) :
  String.ltb a b = false → String.ltb b c = false → String.ltb a c = false.
Proof.
  unfold String.ltb. intros Hab Hbc.
  destruct (String.compare a c) eqn:Hac; try done.
  destruct (String.compare a b) eqn:Hab'; try done.
  - apply String.compare_eq_iff in Hab'. subst. by rewrite Hac in Hbc.
  - rewrite String.compare_antisym in Hab'.
    destruct (String.compare b a) eqn:Hba; try done.
    by rewrite (string_lt_trans _ _ _ Hba Hac) in Hbc.
Qed.

Lemma first_ge_trans a b c :
  first_ge a b = true → first_ge b c = true → first_ge a c = true.
Proof.
  destruct a as [|x a], b as [|y b], c as [|z c]; simpl; try done.
  rewrite !negb_true_iff. apply geb_trans.
Qed.

(** The first key of a descending list is a greatest one. *)
Lemma descending_head k0 rest :
  descending (k0 :: rest) = true →
  k0 ≠ [] →
  Forall (λ k, first_ge k0 k = true) (k0 :: rest).
Proof.
  revert k0. induction rest as [|k1 rest IH]; intros k0 Hd Hk0.
  - constructor; [|done]. destruct k0; [done|]. simpl. by rewrite ltb_irrefl.
  - cbn [descending] in Hd. apply andb_true_iff in Hd as [H01 Hd].
    assert (k1 ≠ []) as Hk1 by (destruct k0, k1; done).
    specialize (IH k1 Hd Hk1).
    constructor.
    + destruct k0; [done|]. simpl. by rewrite ltb_irrefl.
    + eapply Forall_impl; [exact IH|]. simpl. intros k. by apply first_ge_trans.
Qed.

Section Stability.
Context {A : Type}.
Implicit Types (x : string * A) (l : list (string * A)).

Lemma insert_desc_filter v x l :
  List.filter (keyed v) (insert_desc x l) = List.filter (keyed v) (x :: l).
Proof.
  induction l as [|y l IH]; [done|]. cbn [insert_desc].
  destruct (String.ltb x.1 y.1) eqn:Hxy; [|done].
  cbn [List.filter] in *. rewrite IH.
  destruct (keyed v x) eqn:Hx; [|done].
  assert (keyed v y = false) as ->; [|done].
  unfold keyed in *. apply String.eqb_eq in Hx. subst v.
  apply String.eqb_neq. intros Heq. rewrite Heq, ltb_irrefl in Hxy. done.
Qed.

Lemma sort_desc_filter v l :
  List.filter (keyed v) (sort_desc l) = List.filter (keyed v) l.
Proof.
  induction l as [|x l IH]; [done|]. cbn [sort_desc].
  rewrite insert_desc_filter. cbn [List.filter]. by rewrite IH.
Qed.
End Stability.

Lemma filter_decorated v (d : list (string * partition_record)) :
  Forall (λ kx, Values (snd kx) = fst kx :: tail (Values (snd kx))) d →
  List.filter (λ x, has_first v (Values x)) (map snd d)
    = map snd (List.filter (keyed v) d).
Proof.
  induction 1 as [|kx d Hkx _ IH]; [done|]. cbn [map List.filter].
  unfold has_first at 1. rewrite Hkx. fold (keyed v kx).
  destruct (keyed v kx); simpl; by rewrite IH.
Qed.

(** X5. What [sorted] gives for a page: the entries of the page, none lost
    or added, in descending order of their first values, entries with the
    same first value in the order the service sent them. *)
Theorem page_order page sorted :
  sorted_by_first_value page = Ok sorted →
  sorted ≡ₚ page
  ∧ descending (map Values sorted) = true
  ∧ ∀ v, List.filter (λ x, has_first v (Values x)) sorted
         = List.filter (λ x, has_first v (Values x)) page.
Proof.
  intros Hs. destruct (sorted_by_first_value_spec _ _ Hs) as (Hp & _ & Hd).
  split; [done|]. split; [done|]. intros v.
  unfold sorted_by_first_value in Hs.
  destruct (decorate page) as [d|] eqn:Hdec; [|done].
  injection Hs as <-. destruct (decorate_spec _ _ Hdec) as [Hpage Hall].
  rewrite filter_decorated; [|by rewrite sort_desc_perm].
  rewrite sort_desc_filter, <- filter_decorated; [|done]. by rewrite Hpage.
Qed.

(** X5 on the first page of [sales]: the two entries have the same first
    value and keep their order. *)
Lemma page_order_run :
  let page := [MemGlue.row ["2024"; "03"]; MemGlue.row ["2024"; "01"]] in
  sorted_by_first_value page = Ok page
  ∧ page ≡ₚ page
  ∧ descending (map Values page) = true
  ∧ ∀ v, List.filter (λ x, has_first v (Values x)) page
         = List.filter (λ x, has_first v (Values x)) page.
Proof.
  cbv zeta. split; [reflexivity|].
  apply (page_order [MemGlue.row ["2024"; "03"]; MemGlue.row ["2024"; "01"]]).
  reflexivity.
Defined.

Section LastPartition.
Context {Svc : Type} `{GlueService Svc}.

(** The flag [only_first_value] has no effect on the process. *)
Lemma listing_world fuel database table b (w : World Svc) :
  snd <$> get_all_partitions fuel database table b w
    = snd <$> get_all_partitions fuel database table false w.
Proof.
  destruct (_cache w !! cache_key database table) as [ks|] eqn:Hc.
  - by rewrite !(get_all_partitions_hit _ _ _ _ _ _ Hc).
  - rewrite !(get_all_partitions_miss _ _ _ _ _ Hc).
    destruct (fetch_pages _ _ _ _ _ _) as [[[[[]|e] ps] w1]|]; [done| |done].
    by destruct (is_entity_not_found e).
Qed.

(** X6. For an uncached table that the service lists in one page,
    [get_last_partition] returns a partition of the page whose first value
    no other partition of the page exceeds; with [only_first_value] it
    returns that first value. *)
Theorem single_page_last_is_greatest fuel database table (w : World Svc) page s' :
  _cache w !! cache_key database table = None →
  glue_get_partitions database table 500 true "" (glue w)
    = (Ok {| Partitions := page; NextToken := None |}, s') →
  Forall (λ x, Values x ≠ []) page →
  page ≠ [] →
  (1 ≤ fuel)%nat →
  ∃ k0 w',
    get_last_partition fuel database table false w = Some (Ok (Key k0), w')
    ∧ get_last_partition fuel database table true w
      = Some (Ok (FirstValue (hd "" k0)), w')
    ∧ k0 ∈ map Values page
    ∧ Forall (λ x, first_ge k0 (Values x) = true) page.
Proof.
  intros Hmiss Hs Hpage Hne Hfuel.
  destruct (page_keys_spec page Hpage) as (Hperm & Hnonempty & Hdesc).
  destruct (page_keys page) as [|k0 rest] eqn:Hks.
  { apply Permutation_nil_l in Hperm. by destruct page. }
  assert (Hserves : serves_pages database table "" (glue w) [page] s')
    by (by apply serves_last).
  assert (Hall : Forall (Forall (λ x, Values x ≠ [])) [page])
    by (by repeat constructor).
  destruct (listing_of_pages fuel database table false w [page] s' Hmiss Hserves Hall Hfuel)
    as (reqs & w' & Hfalse & Hm & Hg & Hl & Hc & _).
  destruct (listing_of_pages fuel database table true w [page] s' Hmiss Hserves Hall Hfuel)
    as (reqs' & w'' & Htrue & Hm' & Hg' & Hl' & Hc' & _).
  assert (w'' = w') as ->.
  { pose proof (listing_world fuel database table true w) as Hsame.
    rewrite Hfalse, Htrue in Hsame. by injection Hsame. }
  simpl in Hfalse, Htrue. rewrite app_nil_r, Hks in Hfalse, Htrue.
  exists k0, w'. unfold get_last_partition. rewrite Hfalse, Htrue.
  split; [done|]. split; [done|].
  split.
  - rewrite <- Hperm. by left.
  - inversion Hnonempty as [|? ? Hk0 _]; subst.
    pose proof (descending_head k0 rest Hdesc Hk0) as Hhead.
    apply Forall_forall. intros x Hx.
    assert (Values x ∈ k0 :: rest) as Hin.
    { rewrite Hperm. by apply list_elem_of_fmap_2. }
    by apply (proj1 (Forall_forall _ _) Hhead).
Qed.
End LastPartition.

(** X6 on [monthly_catalog]: the three partitions come in one page. *)
Lemma single_page_last_is_greatest_run :
  let page := [MemGlue.row ["2024-01"]; MemGlue.row ["2024-03"];
               MemGlue.row ["2024-02"]] in
  let w := MemGlue.fresh monthly_catalog in
  glue_get_partitions "logs" "events" 500 true "" (glue w)
    = (Ok {| Partitions := page; NextToken := None |}, monthly_catalog)
  ∧ fst <$> get_last_partition 1 "logs" "events" true w
    = Some (Ok (FirstValue "2024-03"))
  ∧ ∃ k0 w',
      get_last_partition 1 "logs" "events" false w = Some (Ok (Key k0), w')
      ∧ get_last_partition 1 "logs" "events" true w
        = Some (Ok (FirstValue (hd "" k0)), w')
      ∧ k0 ∈ map Values page
      ∧ Forall (λ x, first_ge k0 (Values x) = true) page.
Proof.
  cbv zeta. split; [reflexivity|]. split; [vm_compute; reflexivity|].
  refine (single_page_last_is_greatest 1 "logs" "events" (MemGlue.fresh monthly_catalog)
            [MemGlue.row ["2024-01"]; MemGlue.row ["2024-03"]; MemGlue.row ["2024-02"]]
            monthly_catalog _ _ _ _ _).
  - reflexivity.
  - reflexivity.
  - repeat constructor; discriminate.
  - discriminate.
  - simpl. lia.
Defined.

(** * Names and keys *)

Lemma cache_key_unfold database table :
  cache_key database table = append database (String "."%char table).
Proof. reflexivity. Qed.

Lemma cache_key_inj d1 : ∀ d2 t1 t2,
  dot_free d1 = true → dot_free d2 = true →
  cache_key d1 t1 = cache_key d2 t2 → d1 = d2 ∧ t1 = t2.
Proof.
  unfold cache_key.
  induction d1 as [|c1 d1 IH]; intros [|c2 d2] t1 t2 H1 H2 Heq; simpl in *.
  - by injection Heq as Heq; subst.
  - injection Heq as Hc _. subst c2. simpl in H2. done.
  - injection Heq as Hc _. subst c1. simpl in H1. done.
  - injection Heq as Hc Heq. subst c2.
    apply andb_true_iff in H1 as [_ H1]. apply andb_true_iff in H2 as [_ H2].
    destruct (IH d2 t1 t2 H1 H2 Heq) as [Hd Ht]. by subst.
Qed.

Section Names.
Context {Svc : Type} `{GlueService Svc}.

(** X7. The cache does not tell apart two tables whose database and table
    names join to the same text around the dot: once one of them was
    listed, a listing of the other returns the keys of the first, and the
    service is not asked. *)
Theorem cache_key_shared fuel d1 t1 b (w : World Svc) l w1 d2 t2 :
  cache_key d1 t1 = cache_key d2 t2 →
  get_all_partitions fuel d1 t1 b w = Some (Ok l, w1) →
  ∃ ks,
    from_cache b ks = Ok l
    ∧ ∀ fuel' b', get_all_partitions fuel' d2 t2 b' w1 = Some (from_cache b' ks, w1).
Proof.
  intros Hkey Hg.
  destruct (listing_populates _ _ _ _ _ _ _ Hg) as (Hcl & ks & Hks & Hl & _).
  exists ks. split; [done|]. intros fuel' b'.
  rewrite (get_all_partitions_hit _ _ _ _ _ ks); [|by rewrite <- Hkey].
  by rewrite (started_id _ Hcl).
Qed.

(** X8. Database names without a dot keep tables apart: two tables then
    have the same cache key only if they are the same table, and a listing
    of one leaves a table that is not in the cache out of it. *)
Theorem cache_key_separates fuel d1 t1 b (w : World Svc) r w' d2 t2 :
  dot_free d1 = true → dot_free d2 = true →
  (d1, t1) ≠ (d2, t2) →
  get_all_partitions fuel d1 t1 b w = Some (r, w') →
  cache_key d1 t1 ≠ cache_key d2 t2
  ∧ _cache w' !! cache_key d2 t2 = _cache w !! cache_key d2 t2.
Proof.
  intros H1 H2 Hne Hg.
  assert (cache_key d1 t1 ≠ cache_key d2 t2) as Hkey.
  { intros Heq. destruct (cache_key_inj _ _ _ _ H1 H2 Heq) as [-> ->]. done. }
  split; [done|].
  destruct (get_all_partitions_frame _ _ _ _ _ _ _ Hg) as [_ [->|(_ & ks & _ & ->)]];
    [done|].
  by rewrite lookup_insert_ne.
Qed.

(** X9. Keys are compared as text: two [partition] arguments whose elements
    print the same with [str] are the same key to [get_partition],
    [create_partition] and [update_partition]. *)
Theorem keys_compared_as_strings database table p1 p2 location (w : World Svc) :
  map str p1 = map str p2 →
  get_partition database table p1 w = get_partition database table p2 w
  ∧ create_partition database table p1 location w
    = create_partition database table p2 location w
  ∧ update_partition database table p1 location w
    = update_partition database table p2 location w.
Proof.
  intros Heq.
  rewrite !get_partition_unfold, !create_partition_unfold, !update_partition_unfold.
  cbv zeta. by rewrite Heq.
Qed.
End Names.

(** X7 on [dotted_catalog]: the tables [c] of [a.b] and [b.c] of [a]. *)
Lemma cache_key_shared_run :
  let w := MemGlue.fresh dotted_catalog in
  let w1 := set_cache {["a.b.c" := [["2024"]]]}
              (requested [GetPartitions "a.b" "c" 500 true ""] dotted_catalog
                 (started w)) in
  cache_key "a.b" "c" = cache_key "a" "b.c"
  ∧ fst <$> get_all_partitions 1 "a" "b.c" false w = Some (Ok (Keys [["1999"]]))
  ∧ get_all_partitions 1 "a.b" "c" false w = Some (Ok (Keys [["2024"]]), w1)
  ∧ get_all_partitions 1 "a" "b.c" false w1 = Some (Ok (Keys [["2024"]]), w1).
Proof.
  cbv zeta. split; [reflexivity|]. split; [vm_compute; reflexivity|].
  assert (Hg : get_all_partitions 1 "a.b" "c" false (MemGlue.fresh dotted_catalog)
               = Some (Ok (Keys [["2024"]]),
                       set_cache {["a.b.c" := [["2024"]]]}
                         (requested [GetPartitions "a.b" "c" 500 true ""] dotted_catalog
                            (started (MemGlue.fresh dotted_catalog)))))
    by (vm_compute; reflexivity).
  split; [exact Hg|].
  destruct (cache_key_shared 1 "a.b" "c" false (MemGlue.fresh dotted_catalog)
              (Keys [["2024"]]) _ "a" "b.c" eq_refl Hg)
    as (ks & Hks & Hshared).
  injection Hks as ->. apply (Hshared 1%nat false).
Defined.

(** X8 on [sales]: listing the transactions leaves the returns unlisted. *)
Lemma cache_key_separates_run :
  let w := MemGlue.fresh MemGlue.sales in
  get_all_partitions 2 "sales" "transactions" false w
    = Some (Ok (Keys [["2024"; "03"]; ["2024"; "01"]; ["2024"; "02"]]), MemGlue.listed)
  ∧ cache_key "sales" "transactions" ≠ cache_key "sales" "returns"
  ∧ _cache MemGlue.listed !! cache_key "sales" "returns"
    = _cache w !! cache_key "sales" "returns".
Proof.
  cbv zeta.
  assert (Hg : get_all_partitions 2 "sales" "transactions" false
                 (MemGlue.fresh MemGlue.sales)
               = Some (Ok (Keys [["2024"; "03"]; ["2024"; "01"]; ["2024"; "02"]]),
                       MemGlue.listed)) by (vm_compute; reflexivity).
  split; [exact Hg|].
  refine (cache_key_separates 2 "sales" "transactions" false
            (MemGlue.fresh MemGlue.sales) _ MemGlue.listed "sales" "returns"
            _ _ _ Hg).
  - reflexivity.
  - reflexivity.
  - discriminate.
Defined.

(** X9 on [sales]: the year as a number and as text. *)
Lemma keys_compared_as_strings_run :
  let w := MemGlue.fresh MemGlue.sales in
  map str [PyInt 2024; PyStr "03"] = map str [PyStr "2024"; PyStr "03"]
  ∧ get_partition "sales" "transactions" [PyInt 2024; PyStr "03"] w
    = get_partition "sales" "transactions" [PyStr "2024"; PyStr "03"] w
  ∧ create_partition "sales" "transactions" [PyInt 2024; PyStr "03"] "s3://bucket/new" w
    = create_partition "sales" "transactions" [PyStr "2024"; PyStr "03"] "s3://bucket/new" w
  ∧ update_partition "sales" "transactions" [PyInt 2024; PyStr "03"] "s3://bucket/new" w
    = update_partition "sales" "transactions" [PyStr "2024"; PyStr "03"] "s3://bucket/new" w.
Proof.
  cbv zeta. split; [reflexivity|].
  apply (keys_compared_as_strings "sales" "transactions"
           [PyInt 2024; PyStr "03"] [PyStr "2024"; PyStr "03"]).
  reflexivity.
Defined.

(** * Requests and log records of the single-partition operations *)

Section Footprints.
Context {Svc : Type} `{GlueService Svc}.

(** X10. A call of [create_partition] sends a create request exactly when
    the service answered its lookup with not-found, and then one only: the
    request for the key as text, at the given location, with the fixed
    formats. *)
Theorem create_request_iff_not_found database table partition location (w : World Svc) :
  let p := map str partition in
  create_requests (calls (snd (create_partition database table partition location w)))
    = (create_requests (calls w) ++
       match fst (glue_get_partition database table p (glue w)) with
       | Raise EntityNotFoundException =>
           [CreatePartition database table (create_input p location)]
       | _ => []
       end)%list.
Proof.
  cbv zeta. unfold create_requests. rewrite create_partition_unfold. cbv zeta.
  destruct (glue_get_partition _ _ _ _) as [[r|e] s]; simpl.
  - by rewrite started_calls, List.filter_app.
  - destruct e; simpl; try by rewrite started_calls, List.filter_app.
    destruct (glue_create_partition _ _ _ _) as [[response|e2] s2]; simpl;
      [destruct (HTTPStatusCode response =? 200); simpl|];
      rewrite started_calls, !List.filter_app; simpl; by rewrite app_nil_r.
Qed.

(** X11. Creating a partition that did not exist logs a warning first (the
    one of the lookup that found nothing), then the debug record of the
    attempt; the success record follows only for status 200, and for any
    other status nothing is logged about the outcome. *)
Theorem create_partition_logs database table partition location (w : World Svc)
    s response s2 :
  let p := map str partition in
  glue_get_partition database table p (glue w) = (Raise EntityNotFoundException, s) →
  glue_create_partition database table (create_input p location) s = (Ok response, s2) →
  fst (create_partition database table partition location w) = Ok tt
  ∧ logged (snd (create_partition database table partition location w))
    = (logged w ++
       [(WARNING, MsgPartitionMissing p database table);
        (DEBUG, MsgCreating p location)] ++
       (if HTTPStatusCode response =? 200 then [(DEBUG, MsgCreated)] else []))%list.
Proof.
  cbv zeta. intros Hget Hput. rewrite create_partition_unfold. cbv zeta.
  rewrite Hget. simpl. rewrite Hput. split; [done|].
  destruct (HTTPStatusCode response =? 200); simpl;
    rewrite started_logged, <- !app_assoc; simpl; by rewrite ?app_nil_r.
Qed.

(** X12. A call of [update_partition] sends one request and no other,
    whether or not the partition exists: the update of the key as text,
    whose input carries the key and the location and nothing else.  The
    service is left as that request leaves it. *)
Theorem update_issues_one_request database table partition location (w : World Svc) :
  let p := map str partition in
  let w' := snd (update_partition database table partition location w) in
  calls w' = (calls w ++ [UpdatePartition database table p (update_input p location)])%list
  ∧ glue w' = snd (glue_update_partition database table p (update_input p location) (glue w)).
Proof.
  cbv zeta. rewrite update_partition_unfold. cbv zeta.
  destruct (glue_update_partition _ _ _ _) as [[response|e] s]; simpl;
    [destruct (HTTPStatusCode response =? 200); simpl|];
    by rewrite started_calls.
Qed.

(** X13. [get_partition] hands the service's answer on: a record found is
    returned as it came and nothing is logged; an error other than
    not-found is raised to the caller, nothing logged either. *)
Theorem get_partition_answers database table partition (w : World Svc) :
  let p := map str partition in
  let w' := served (GetPartition database table p) in
  (∀ r s,
     glue_get_partition database table p (glue w) = (Ok r, s) →
     get_partition database table partition w = (Ok (Some r), w' s (started w))
     ∧ logged (w' s (started w)) = logged w)
  ∧ (∀ e s,
       glue_get_partition database table p (glue w) = (Raise e, s) →
       e ≠ EntityNotFoundException →
       get_partition database table partition w = (Raise e, w' s (started w))
       ∧ logged (w' s (started w)) = logged w).
Proof.
  cbv zeta. split.
  - intros r s Hget. rewrite get_partition_unfold. cbv zeta. rewrite Hget.
    split; [done|]. simpl. apply started_logged.
  - intros e s Hget He. rewrite get_partition_unfold. cbv zeta. rewrite Hget.
    assert (is_entity_not_found e = false) as -> by (by destruct e).
    split; [done|]. simpl. apply started_logged.
Qed.
End Footprints.

(** X11 on [sales] (status 200) and on [lagging] (status 202). *)
Lemma create_partition_logs_run :
  let p := [PyInt 2025; PyStr "01"] in
  let w := MemGlue.fresh MemGlue.sales in
  let v := MemGlue.fresh MemGlue.lagging in
  logged (snd (create_partition "sales" "transactions" p "s3://bucket/new" w))
    = [(WARNING, MsgPartitionMissing ["2025"; "01"] "sales" "transactions");
       (DEBUG, MsgCreating ["2025"; "01"] "s3://bucket/new");
       (DEBUG, MsgCreated)]
  ∧ fst (create_partition "sales" "transactions" p "s3://bucket/new" v) = Ok tt
  ∧ logged (snd (create_partition "sales" "transactions" p "s3://bucket/new" v))
    = [(WARNING, MsgPartitionMissing ["2025"; "01"] "sales" "transactions");
       (DEBUG, MsgCreating ["2025"; "01"] "s3://bucket/new")].
Proof.
  cbv zeta. split.
  - refine (proj2 (create_partition_logs "sales" "transactions" [PyInt 2025; PyStr "01"]
                     "s3://bucket/new" (MemGlue.fresh MemGlue.sales)
                     MemGlue.sales {| HTTPStatusCode := 200 |} _ _ _));
      reflexivity.
  - refine (create_partition_logs "sales" "transactions" [PyInt 2025; PyStr "01"]
              "s3://bucket/new" (MemGlue.fresh MemGlue.lagging)
              MemGlue.lagging {| HTTPStatusCode := 202 |} _ _ _);
      reflexivity.
Defined.

(** X13 on [sales] (the key exists) and on [denied]. *)
Lemma get_partition_answers_run :
  let p := [PyStr "2024"; PyStr "03"] in
  fst (get_partition "sales" "transactions" p (MemGlue.fresh MemGlue.sales))
    = Ok (Some {| Partition := MemGlue.row ["2024"; "03"] |})
  ∧ fst (get_partition "sales" "transactions" p (MemGlue.fresh MemGlue.denied))
    = Raise (OtherException "AccessDeniedException").
Proof.
  cbv zeta. split.
  - assert (Hget : glue_get_partition "sales" "transactions"
                     (map str [PyStr "2024"; PyStr "03"])
                     (glue (MemGlue.fresh MemGlue.sales))
                   = (Ok {| Partition := MemGlue.row ["2024"; "03"] |}, MemGlue.sales))
      by reflexivity.
    rewrite (proj1 (proj1 (get_partition_answers "sales" "transactions"
               [PyStr "2024"; PyStr "03"] (MemGlue.fresh MemGlue.sales)) _ _ Hget)).
    reflexivity.
  - assert (Hget : glue_get_partition "sales" "transactions"
                     (map str [PyStr "2024"; PyStr "03"])
                     (glue (MemGlue.fresh MemGlue.denied))
                   = (Raise (OtherException "AccessDeniedException"), MemGlue.denied))
      by reflexivity.
    assert (Hne : OtherException "AccessDeniedException" ≠ EntityNotFoundException)
      by discriminate.
    rewrite (proj1 (proj2 (get_partition_answers "sales" "transactions"
               [PyStr "2024"; PyStr "03"] (MemGlue.fresh MemGlue.denied)) _ _ Hget Hne)).
    reflexivity.
Defined.

(** * Across calls *)

Section AcrossCalls.
Context {Svc : Type} `{GlueService Svc}.

Lemma run_cache_ok fuel o (w w' : World Svc) :
  run fuel o w = Some w' → cache_ok w → cache_ok w'.
Proof.
  assert (Hlisting : ∀ database table b,
    snd <$> get_all_partitions fuel database table b w = Some w' →
    cache_ok w → cache_ok w').
  { intros database table b Hrun Hok.
    destruct (get_all_partitions _ _ _ _ _) as [[r w1]|] eqn:Hg; [|done].
    injection Hrun as ->.
    destruct (get_all_partitions_frame _ _ _ _ _ _ _ Hg)
      as [_ [Hm|(_ & ps & Hps & Hm)]]; intros k ks; rewrite Hm; [apply Hok|].
    destruct (decide (cache_key database table = k)) as [<-|Hne].
    - rewrite lookup_insert_eq. by intros [= <-].
    - rewrite lookup_insert_ne; [apply Hok|done]. }
  destruct o as [d t p|d t b|d t p l|d t p l|d t b]; simpl.
  - intros [= <-] Hok k ks.
    destruct (get_partition_frame d t p w) as [_ ->]. apply Hok.
  - apply Hlisting.
  - intros [= <-] Hok k ks.
    destruct (create_partition_frame d t p l w) as [_ ->]. apply Hok.
  - intros [= <-] Hok k ks.
    destruct (update_partition_frame d t p l w) as [_ ->]. apply Hok.
  - rewrite get_last_partition_world. apply Hlisting.
Qed.


(** X14. Once a listing of a table has returned, [get_last_partition] for
    that table gives the same outcome from then on, whatever calls of the
    interface come in between: the first element of that listing, or
    [IndexError] again if it was empty.  It asks the service nothing and
    changes nothing. *)
Theorem get_last_partition_repeats fuel database table b (w : World Svc) l w1 :
  get_all_partitions fuel database table b w = Some (Ok l, w1) →
  ∀ fuel' os w2,
    run_all fuel' os w1 = Some w2 →
    ∀ fuel'', get_last_partition fuel'' database table b w2 = Some (item0 l, w2).
Proof.
  intros Hg fuel' os w2 Hrun fuel''.
  destruct (listing_populates _ _ _ _ _ _ _ Hg) as (Hcl & ks & Hks & Hl & _).
  destruct (run_all_frame _ _ _ _ Hrun Hcl) as [Hcl2 Hm2].
  unfold get_last_partition.
  rewrite (get_all_partitions_hit _ _ _ _ _ ks); [|by apply Hm2].
  by rewrite Hl, (started_id _ Hcl2).
Qed.

(** X15. The interface keeps the cache well formed: if every stored key has
    a first component, that is so after any calls of the interface, and a
    listing with [only_first_value] of a table in the cache then returns
    the first components of the stored keys and never raises. *)
Theorem cache_stays_well_formed fuel os (w w' : World Svc) :
  cache_ok w →
  run_all fuel os w = Some w' →
  cache_ok w'
  ∧ ∀ database table ks fuel',
      _cache w' !! cache_key database table = Some ks →
      get_all_partitions fuel' database table true w'
        = Some (Ok (FirstValues (map (hd "") ks)), started w').
Proof.
  intros Hok Hrun.
  assert (cache_ok w') as Hok'.
  { revert w Hok Hrun. induction os as [|o os IH]; simpl; intros w Hok Hrun.
    - by injection Hrun as <-.
    - destruct (run fuel o w) as [w1|] eqn:Ho; [|done].
      eapply IH; [|exact Hrun]. by eapply run_cache_ok. }
  split; [done|]. intros database table ks fuel' Hks.
  rewrite (get_all_partitions_hit _ _ _ _ _ _ Hks).
  unfold from_cache, projected.
  rewrite first_components_nonempty; [done|]. by eapply Hok'.
Qed.

End AcrossCalls.

(** X14 on [empty_table]: the table is listed empty, a partition is
    created, and the last partition is still missing. *)
Lemma get_last_partition_repeats_run :
  let w := MemGlue.fresh MemGlue.empty_table in
  let w1 := set_cache {["sales.returns" := []]}
              (requested [GetPartitions "sales" "returns" 500 true ""]
                 MemGlue.empty_table (started w)) in
  let os := [DoCreatePartition "sales" "returns" [PyStr "2024"] "s3://bucket/new"] in
  get_all_partitions 1 "sales" "returns" true w = Some (Ok (FirstValues []), w1)
  ∧ ∃ w2,
      run_all 0 os w1 = Some w2
      ∧ fst (get_partition "sales" "returns" [PyStr "2024"] w2)
        = Ok (Some {| Partition := create_input ["2024"] "s3://bucket/new" |})
      ∧ get_last_partition 0 "sales" "returns" true w2 = Some (Raise IndexError, w2).
Proof.
  cbv zeta.
  assert (Hg : get_all_partitions 1 "sales" "returns" true
                 (MemGlue.fresh MemGlue.empty_table)
               = Some (Ok (FirstValues []),
                       set_cache {["sales.returns" := []]}
                         (requested [GetPartitions "sales" "returns" 500 true ""]
                            MemGlue.empty_table
                            (started (MemGlue.fresh MemGlue.empty_table)))))
    by (vm_compute; reflexivity).
  split; [exact Hg|].
  eexists. split; [reflexivity|]. split; [vm_compute; reflexivity|].
  apply (get_last_partition_repeats 1 "sales" "returns" true _ _ _ Hg 0%nat
           [DoCreatePartition "sales" "returns" [PyStr "2024"] "s3://bucket/new"]
           _ eq_refl 0%nat).
Defined.

(** X15 from a process with an empty cache, over [sales]. *)
Lemma cache_stays_well_formed_run :
  let w := MemGlue.fresh MemGlue.sales in
  let os := [DoGetAllPartitions "sales" "transactions" false] in
  cache_ok w
  ∧ run_all 2 os w = Some MemGlue.listed
  ∧ cache_ok MemGlue.listed
  ∧ get_all_partitions 0 "sales" "transactions" true MemGlue.listed
    = Some (Ok (FirstValues ["2024"; "2024"; "2024"]), started MemGlue.listed).
Proof.
  cbv zeta.
  assert (Hok : cache_ok (MemGlue.fresh MemGlue.sales)).
  { intros k ks Hk. simpl in Hk. by rewrite lookup_empty in Hk. }
  assert (Hrun : run_all 2 [DoGetAllPartitions "sales" "transactions" false]
                   (MemGlue.fresh MemGlue.sales) = Some MemGlue.listed)
    by (vm_compute; reflexivity).
  split; [exact Hok|]. split; [exact Hrun|].
  destruct (cache_stays_well_formed 2 _ _ _ Hok Hrun) as [Hok' Hhit].
  split; [exact Hok'|].
  apply (Hhit "sales" "transactions"
           [["2024"; "03"]; ["2024"; "01"]; ["2024"; "02"]] 0%nat).
  reflexivity.
Defined.


(** * The stored order *)

Section StoredOrder.
Context {Svc : Type} `{GlueService Svc}.

(** X17. What a listing stores for a table that the service lists in
    several pages: the keys of the first page, then those of the second,
    and so on, the pages in the order received and the keys of each page in
    descending order of their first values.  The stored list has the
    partitions of every page, ordered within a page only. *)
Theorem listing_stores_pages_in_order fuel database table (w : World Svc) pages s' :
  _cache w !! cache_key database table = None →
  serves_pages database table "" (glue w) pages s' →
  Forall (Forall (λ x, Values x ≠ [])) pages →
  (length pages ≤ fuel)%nat →
  ∃ segments w',
    get_all_partitions fuel database table false w
      = Some (Ok (Keys (concat segments)), w')
    ∧ _cache w' !! cache_key database table = Some (concat segments)
    ∧ Forall2 (λ segment page,
                 segment ≡ₚ map Values page ∧ descending segment = true)
              segments pages.
Proof.
  intros Hmiss Hserves Hpages Hfuel.
  destruct (listing_of_pages fuel database table false w pages s'
              Hmiss Hserves Hpages Hfuel) as (reqs & w' & Hg & Hm & _).
  exists (map page_keys pages), w'. split; [exact Hg|].
  split; [by rewrite Hm, lookup_insert_eq|].
  clear -Hpages. induction Hpages as [|page pages Hpage _ IH]; simpl; [constructor|].
  constructor; [|done].
  destruct (page_keys_spec page Hpage) as (Hp & _ & Hd). done.
Qed.
End StoredOrder.

(** X17 on [sales]: two pages, of two partitions and of one. *)
Lemma listing_stores_pages_in_order_run :
  let pages := [[MemGlue.row ["2024"; "03"]; MemGlue.row ["2024"; "01"]];
                [MemGlue.row ["2024"; "02"]]] in
  let w := MemGlue.fresh MemGlue.sales in
  serves_pages "sales" "transactions" "" (glue w) pages MemGlue.sales
  ∧ ∃ segments w',
      get_all_partitions 2 "sales" "transactions" false w
        = Some (Ok (Keys (concat segments)), w')
      ∧ _cache w' !! cache_key "sales" "transactions" = Some (concat segments)
      ∧ Forall2 (λ segment page,
                   segment ≡ₚ map Values page ∧ descending segment = true)
                segments pages.
Proof.
  cbv zeta.
  assert (Hserves : serves_pages "sales" "transactions" ""
            (glue (MemGlue.fresh MemGlue.sales))
            [[MemGlue.row ["2024"; "03"]; MemGlue.row ["2024"; "01"]];
             [MemGlue.row ["2024"; "02"]]] MemGlue.sales).
  { apply (serves_more "sales" "transactions" "" MemGlue.sales _ "2" MemGlue.sales);
      [reflexivity|].
    apply serves_last. reflexivity. }
  split; [exact Hserves|].
  refine (listing_stores_pages_in_order 2 "sales" "transactions"
            (MemGlue.fresh MemGlue.sales) _ MemGlue.sales _ Hserves _ _).
  - reflexivity.
  - repeat constructor; discriminate.
  - simpl. lia.
Defined.
